(** * The resilient knowledge store of yitam-admin

    A shallow embedding of [server/src/core/database-service.ts]: the
    in-memory fallback store, the Qdrant-backed primary path with its
    cascading tiers, and the routing between the two. *)

From Stdlib Require Import List String Ascii Bool Arith Lia.
From Stdlib Require Import ZArith Floats.
From Stdlib Require Import Permutation.
Import ListNotations.

Set Implicit Arguments.

Open Scope string_scope.
Open Scope list_scope.

(** ** JavaScript numbers

    The source computes with JavaScript [number]s, that is IEEE-754
    binary64.  The arithmetic the file uses is collected in one interface so
    that the code is written once; [float_number] is the arithmetic the
    program runs with. *)

Class JsNumber (N : Type) : Type := {
  num_zero : N;
  num_one : N;
  num_add : N -> N -> N;
  num_sub : N -> N -> N;
  num_mul : N -> N -> N;
  num_div : N -> N -> N;
  num_sqrt : N -> N;
  (** [x === y] *)
  num_eqb : N -> N -> bool;
  (** [x > y] *)
  num_gtb : N -> N -> bool
}.

#[export] Instance float_number : JsNumber float := {
  num_zero := 0%float;
  num_one := 1%float;
  num_add := PrimFloat.add;
  num_sub := PrimFloat.sub;
  num_mul := PrimFloat.mul;
  num_div := PrimFloat.div;
  num_sqrt := PrimFloat.sqrt;
  num_eqb := PrimFloat.eqb;
  num_gtb := fun x y => PrimFloat.ltb y x
}.

(** ** Strings as JavaScript sees them *)

(** [s.startsWith(p)] *)
Definition startsWith (s p : string) : bool := String.prefix p s.

(** Truthiness of a string: every string but the empty one. *)
Definition truthy (s : string) : bool := negb (String.eqb s EmptyString).

(** Truthiness of a possibly [undefined] string. *)
Definition truthy_opt (o : option string) : bool :=
  match o with
  | Some s => truthy s
  | None => false
  end.

(** ** The JavaScript [Map]

    A [Map] iterates in insertion order; [set] on a key already present
    keeps the key's position and replaces its value.  Order decides how ties
    are returned by the search, so the map is a list of entries. *)

Module JsMap.

Section Ops.
Context {V : Type}.

Definition t := list (string * V).

Definition empty : t := [].

Fixpoint get (k : string) (m : t) : option V :=
  match m with
  | [] => None
  | (k', v) :: m' => if String.eqb k k' then Some v else get k m'
  end.

Definition has (k : string) (m : t) : bool :=
  match get k m with
  | Some _ => true
  | None => false
  end.

Fixpoint set (k : string) (v : V) (m : t) : t :=
  match m with
  | [] => [(k, v)]
  | (k', v') :: m' =>
      if String.eqb k k' then (k, v) :: m' else (k', v') :: set k v m'
  end.

Fixpoint delete (k : string) (m : t) : t :=
  match m with
  | [] => []
  | (k', v') :: m' =>
      if String.eqb k k' then m' else (k', v') :: delete k m'
  end.

Definition keys (m : t) : list string := map fst m.
Definition values (m : t) : list V := map snd m.

End Ops.

Arguments t V : clear implicits.

End JsMap.

(** ** Exceptions *)

(** A thrown value; the code only logs it or throws it again. *)
Definition Error : Type := string.

Inductive Outcome (A : Type) : Type :=
  | Returned (a : A)
  | Thrown (e : Error).

Arguments Returned {A} a.
Arguments Thrown {A} e.

(** ** Data model *)

Section Store.

Context {N : Type} {num : JsNumber N}.

(** Modelled from the spec: the type [DocumentChunk] is imported from
    [../services/chunking], which is not part of the sources at hand.  The
    fields are the ones [database-service.ts] reads, optional where the
    data model of the spec (section 3) marks them optional. *)
Record DocumentChunk : Type := {
  id : string;
  documentName : string;
  content : string;
  enhancedContent : option string;
  title : option string;
  summary : option string;
  sourceFile : option string;
  domains : option (list string);
  embedding : list N
}.

(** [interface SearchResult].  The first three fields are declared
    [string], yet on the primary path they are read from a payload typed
    [any] and are [undefined] when the payload lacks them. *)
Record SearchResult : Type := {
  sr_id : option string;
  sr_documentName : option string;
  sr_content : option string;
  sr_enhancedContent : option string;
  sr_title : option string;
  sr_summary : option string;
  sr_sourceFile : option string;
  sr_domains : option (list string);
  score : N
}.

(** [const inMemoryDocuments = new Map<string, { document: DocumentChunk }>()] *)
Definition MemStore : Type := JsMap.t DocumentChunk.

(** *** [cosineSimilarity] *)

(** The body of the [for] loop, over both arrays at once: the loop runs
    [i] from [0] to [a.length], and it is only reached with
    [a.length === b.length]. *)
Fixpoint cosineLoop (a b : list N) (dotProduct aMagnitude bMagnitude : N)
  : N * N * N :=
  match a, b with
  | x :: a', y :: b' =>
      cosineLoop a' b'
        (num_add dotProduct (num_mul x y))
        (num_add aMagnitude (num_mul x x))
        (num_add bMagnitude (num_mul y y))
  | _, _ => (dotProduct, aMagnitude, bMagnitude)
  end.

Definition cosineSimilarity (a b : list N) : N :=
  if negb (Nat.eqb (List.length a) (List.length b)) then num_zero
  else
    let '(dotProduct, aMagnitude, bMagnitude) :=
      cosineLoop a b num_zero num_zero num_zero in
    let aMagnitude := num_sqrt aMagnitude in
    let bMagnitude := num_sqrt bMagnitude in
    if num_eqb aMagnitude num_zero || num_eqb bMagnitude num_zero
    then num_zero
    else num_div dotProduct (num_mul aMagnitude bMagnitude).

(** ** JavaScript arrays *)

(** [l.slice(i, j)] for [0 <= i <= j]. *)
Definition slice {A} (i j : nat) (l : list A) : list A :=
  firstn (j - i) (skipn i l).

(** [l.sort(cmp)].  The sort of an array is stable, and [cmp x y > 0] asks
    for [x] after [y]; with a comparator that orders its arguments
    consistently every stable sort returns the list that insertion does.
    (A comparator that answers [NaN] is read as 0, and the order is then
    the engine's own.) *)
Fixpoint sort_insert {A} (cmp : A -> A -> N) (x : A) (l : list A) : list A :=
  match l with
  | [] => [x]
  | y :: l' =>
      if num_gtb (cmp x y) num_zero then y :: sort_insert cmp x l'
      else x :: l
  end.

Definition sort {A} (cmp : A -> A -> N) (l : list A) : list A :=
  fold_right (sort_insert cmp) [] l.

(** [new Set<string>()], [add] and [Array.from]: insertion order, no
    repetition. *)
Definition set_add (s : string) (l : list string) : list string :=
  if existsb (String.eqb s) l then l else l ++ [s].

(** ** The Local Store: the fallback functions

    Every public operation hands two closures to the fallback service.  The
    first works on [inMemoryDocuments], which is threaded explicitly. *)

(** [`youtube_${videoId}`] *)
Definition idPattern (videoId : string) : string :=
  String.append "youtube_" videoId.

Definition addDocumentChunks_fallback (documents : list DocumentChunk)
  (mem : MemStore) : MemStore :=
  fold_left (fun m doc => JsMap.set (id doc) doc m) documents mem.

(** The object literal built in the fallback of [searchByVector]. *)
Definition scored_result (queryVector : list N) (doc : DocumentChunk)
  : SearchResult :=
  {| sr_id := Some (id doc);
     sr_documentName := Some (documentName doc);
     sr_content := Some (content doc);
     sr_enhancedContent := enhancedContent doc;
     sr_title := title doc;
     sr_summary := summary doc;
     sr_sourceFile := sourceFile doc;
     sr_domains := domains doc;
     score := cosineSimilarity queryVector (embedding doc) |}.

(** [(a, b) => b.score - a.score] *)
Definition by_score_desc (a b : SearchResult) : N :=
  num_sub (score b) (score a).

(** The limit is a count of results; the callers pass 10. *)
Definition searchByVector_fallback (queryVector : list N) (limit : nat)
  (mem : MemStore) : list SearchResult :=
  slice 0 limit
    (sort by_score_desc (map (scored_result queryVector) (JsMap.values mem))).

Definition doesTranscriptExist_fallback (videoId : string) (mem : MemStore)
  : bool :=
  existsb (fun doc => startsWith (id doc) (idPattern videoId))
    (JsMap.values mem).

(** The keys are copied first ([Array.from]) and the map is changed while
    the copy is walked. *)
Definition deleteYoutubeTranscriptChunks_fallback (videoId : string)
  (mem : MemStore) : nat * MemStore :=
  fold_left
    (fun '(deletedCount, m) key =>
       match JsMap.get key m with
       | Some doc =>
           if startsWith (id doc) (idPattern videoId)
           then (S deletedCount, JsMap.delete key m)
           else (deletedCount, m)
       | None => (deletedCount, m)
       end)
    (JsMap.keys mem) (0, mem).

Definition countYoutubeTranscriptChunks_fallback (videoId : string)
  (mem : MemStore) : nat :=
  fold_left
    (fun count doc =>
       if startsWith (id doc) (idPattern videoId) then S count else count)
    (JsMap.values mem) 0.

Definition getUniqueDocumentNames_fallback (mem : MemStore) : list string :=
  fold_left
    (fun documentNames doc =>
       if truthy (documentName doc)
       then set_add (documentName doc) documentNames
       else documentNames)
    (JsMap.values mem) [].

(** The object literal built in the fallback of
    [getChunksByDocumentName]. *)
Definition chunk_result (doc : DocumentChunk) : SearchResult :=
  {| sr_id := Some (id doc);
     sr_documentName := Some (documentName doc);
     sr_content := Some (content doc);
     sr_enhancedContent := enhancedContent doc;
     sr_title := title doc;
     sr_summary := summary doc;
     sr_sourceFile := sourceFile doc;
     sr_domains := domains doc;
     score := num_one |}.

Definition getChunksByDocumentName_fallback (name : string) (mem : MemStore)
  : list SearchResult :=
  map chunk_result
    (filter (fun doc => String.eqb (documentName doc) name)
       (JsMap.values mem)).

Definition deleteChunksByIds_fallback (chunkIds : list string)
  (mem : MemStore) : nat * MemStore :=
  fold_left
    (fun '(deletedCount, m) key =>
       if JsMap.has key m then (S deletedCount, JsMap.delete key m)
       else (deletedCount, m))
    chunkIds (0, mem).

(** ** The primary backend: the Qdrant client

    The client is an external service.  Its requests and responses are
    modelled as data, the service itself as a transition function on a
    state of its own, given as a parameter. *)

(** What a point carries besides its vector.  The code reads it as [any]:
    a field that is missing is [undefined]. *)
Record Payload : Type := {
  p_id : option string;
  p_documentName : option string;
  p_content : option string;
  p_enhancedContent : option string;
  p_title : option string;
  p_summary : option string;
  p_sourceFile : option string;
  p_domains : option (list string)
}.

(** A point as [upsert] sends it. *)
Record PointStruct : Type := {
  ps_id : string;
  ps_vector : list N;
  ps_payload : Payload
}.

(** A point as [scroll] returns it. *)
Record PointRecord : Type := {
  pt_id : string;
  pt_payload : Payload
}.

(** A hit as [search] returns it. *)
Record ScoredPoint : Type := {
  hit_score : N;
  hit_payload : Payload
}.

Inductive Condition : Type :=
  (** [{ key, match: { text, exact: false } }] *)
  | MatchText (key text : string)
  (** [{ key, match: { value } }] *)
  | MatchValue (key value : string).

Record Filter : Type := {
  must : list Condition;
  should : list Condition
}.

Inductive PayloadSelector : Type :=
  | WithPayload
  | Include (fields : list string).

Record ScrollRequest : Type := {
  scroll_filter : option Filter;
  scroll_limit : nat;
  scroll_offset : option string;
  scroll_with_payload : PayloadSelector
}.

Record ScrollResponse : Type := {
  points : list PointRecord;
  next_page_offset : option string
}.

Inductive DeleteRequest : Type :=
  | DeleteFilter (filter : Filter)
  | DeletePoints (ids : list string).

Record SearchRequest : Type := {
  search_vector : list N;
  search_limit : nat
}.

Inductive Request : Type :=
  | GetCollections
  | CreateCollection (name : string) (size : nat)
  | CreatePayloadIndex (name field_name : string)
  | Upsert (pts : list PointStruct)
  | Search (r : SearchRequest)
  | Count (filter : Filter)
  | Scroll (r : ScrollRequest)
  | Delete (r : DeleteRequest).

Record QdrantClient (St : Type) : Type := {
  getCollections : St -> Outcome (list string) * St;
  createCollection : string -> nat -> St -> Outcome unit * St;
  createPayloadIndex : string -> string -> St -> Outcome unit * St;
  upsert : list PointStruct -> St -> Outcome unit * St;
  search : SearchRequest -> St -> Outcome (list ScoredPoint) * St;
  count : Filter -> St -> Outcome nat * St;
  scroll : ScrollRequest -> St -> Outcome ScrollResponse * St;
  delete : DeleteRequest -> St -> Outcome unit * St
}.

End Store.

Arguments DocumentChunk N : clear implicits.
Arguments SearchResult N : clear implicits.
Arguments MemStore N : clear implicits.
Arguments PointStruct N : clear implicits.
Arguments ScoredPoint N : clear implicits.
Arguments SearchRequest N : clear implicits.
Arguments Request N : clear implicits.
Arguments QdrantClient N St : clear implicits.

(** ** Computations against the backend

    A computation runs in a world: the state of the backend, the requests
    sent so far (kept to tell which calls were made), and the count of
    identifiers drawn from [uuidv4].  It returns, throws, or is still in a
    paging loop when its fuel is spent ([None]). *)

Section Primary.

Context {N : Type} {num : JsNumber N}.
Context {St : Type}.
Variable qdrantClient : QdrantClient N St.

(** The identifiers [uuidv4()] yields, in the order of the calls. *)
Variable uuidv4 : nat -> string.

Record World : Type := {
  backend : St;
  requests : list (Request N);
  uuids : nat
}.

Definition M (A : Type) : Type := World -> option (Outcome A * World).

Definition ret {A} (a : A) : M A := fun w => Some (Returned a, w).

Definition throw {A} (e : Error) : M A := fun w => Some (Thrown e, w).

Definition bind {A B} (m : M A) (k : A -> M B) : M B :=
  fun w =>
    match m w with
    | Some (Returned a, w') => k a w'
    | Some (Thrown e, w') => Some (Thrown e, w')
    | None => None
    end.

(** [try { m } catch (error) { handler error }] *)
Definition try_catch {A} (m : M A) (handler : Error -> M A) : M A :=
  fun w =>
    match m w with
    | Some (Returned a, w') => Some (Returned a, w')
    | Some (Thrown e, w') => handler e w'
    | None => None
    end.

Definition timeout {A} : M A := fun _ => None.

(** One awaited call of the client. *)
Definition call {A} (r : Request N) (f : St -> Outcome A * St) : M A :=
  fun w =>
    let '(o, st) := f (backend w) in
    Some (o, {| backend := st;
                requests := requests w ++ [r];
                uuids := uuids w |}).

Definition fresh_uuid : M string :=
  fun w =>
    Some (Returned (uuidv4 (uuids w)),
          {| backend := backend w;
             requests := requests w;
             uuids := S (uuids w) |}).

Notation "x <- m ;; k" := (bind m (fun x => k))
  (at level 61, m at next level, right associativity).

(** [do { ... } while (nextPageOffset)]: the body gets the state of the
    loop and the offset to ask for, and gives the new state and the offset
    the page named; the loop goes on while that offset is truthy. *)
Fixpoint doWhile {S} (fuel : nat)
  (body : S -> option string -> M (S * option string))
  (s : S) (nextPageOffset : option string) : M S :=
  match fuel with
  | 0 => timeout
  | Datatypes.S fuel' =>
      r <- body s nextPageOffset ;;
      if truthy_opt (snd r) then doWhile fuel' body (fst r) (snd r)
      else ret (fst r)
  end.

(** [for (const x of l) { ... }] with awaited calls in the body. *)
Fixpoint forEachM {A S} (body : S -> A -> M S) (l : list A) (s : S) : M S :=
  match l with
  | [] => ret s
  | x :: l' => s' <- body s x ;; forEachM body l' s'
  end.

(** *** Configuration constants, at their defaults *)

Definition COLLECTION_NAME : string := "knowledge_base".
Definition VECTOR_SIZE : nat := 768.

(** *** [initialize]: the body of the [try] *)

Definition initialize_qdrant : M unit :=
  collections <- call GetCollections (getCollections qdrantClient) ;;
  let collectionExists := existsb (String.eqb COLLECTION_NAME) collections in
  if negb collectionExists then
    _ <- call (CreateCollection COLLECTION_NAME VECTOR_SIZE)
           (createCollection qdrantClient COLLECTION_NAME VECTOR_SIZE) ;;
    _ <- call (CreatePayloadIndex COLLECTION_NAME "documentName")
           (createPayloadIndex qdrantClient COLLECTION_NAME "documentName") ;;
    _ <- call (CreatePayloadIndex COLLECTION_NAME "title")
           (createPayloadIndex qdrantClient COLLECTION_NAME "title") ;;
    call (CreatePayloadIndex COLLECTION_NAME "domains")
      (createPayloadIndex qdrantClient COLLECTION_NAME "domains")
  else ret tt.

(** *** [addDocumentChunks]: the Qdrant function *)

Definition payload_of (doc : DocumentChunk N) : Payload :=
  {| p_id := Some (id doc);
     p_documentName := Some (documentName doc);
     p_content := Some (content doc);
     p_enhancedContent := enhancedContent doc;
     p_title := title doc;
     p_summary := summary doc;
     p_sourceFile := sourceFile doc;
     p_domains := domains doc |}.

Definition addDocumentChunks_qdrant (documents : list (DocumentChunk N))
  : M unit :=
  if Nat.eqb (List.length documents) 0 then ret tt
  else
    pts <- forEachM
             (fun acc doc =>
                u <- fresh_uuid ;;
                ret (acc ++ [{| ps_id := u;
                                ps_vector := embedding doc;
                                ps_payload := payload_of doc |}]))
             documents [] ;;
    call (Upsert pts) (upsert qdrantClient pts).

(** *** [searchByVector]: the Qdrant function *)

(** [payload.domains || ['default']]: an array, even an empty one, is
    truthy. *)
Definition domains_or_default (d : option (list string))
  : option (list string) :=
  match d with
  | Some l => Some l
  | None => Some ["default"]
  end.

Definition hit_result (hit : ScoredPoint N) : SearchResult N :=
  let payload := hit_payload hit in
  {| sr_id := p_id payload;
     sr_documentName := p_documentName payload;
     sr_content := p_content payload;
     sr_enhancedContent := p_enhancedContent payload;
     sr_title := p_title payload;
     sr_summary := p_summary payload;
     sr_sourceFile := p_sourceFile payload;
     sr_domains := domains_or_default (p_domains payload);
     score := hit_score hit |}.

Definition searchByVector_qdrant (queryVector : list N) (limit : nat)
  : M (list (SearchResult N)) :=
  let r := {| search_vector := queryVector; search_limit := limit |} in
  results <- call (Search r) (search qdrantClient r) ;;
  ret (map hit_result results).

(** *** Prefix queries: the Qdrant functions *)

(** [{ must: [{ key: 'id', match: { text: idPattern, exact: false } }] }] *)
Definition id_text_filter (pattern : string) : Filter :=
  {| must := [MatchText "id" pattern]; should := [] |}.

(** [payload.id && payload.id.startsWith(idPattern)], read as a
    condition. *)
Definition payload_id_startsWith (pattern : string) (point : PointRecord)
  : bool :=
  match p_id (pt_payload point) with
  | Some s => truthy s && startsWith s pattern
  | None => false
  end.

(** The unfiltered page request of the paging loops. *)
Definition page_request (offset : option string) (sel : PayloadSelector)
  : ScrollRequest :=
  {| scroll_filter := None;
     scroll_limit := 100;
     scroll_offset := offset;
     scroll_with_payload := sel |}.

(** The three attempts of [doesTranscriptExist], outermost first. *)
Definition exists_by_count (videoId : string) : M bool :=
  let filter := id_text_filter (idPattern videoId) in
  countResponse <- call (Count filter) (count qdrantClient filter) ;;
  ret (Nat.ltb 0 countResponse).

Definition exists_by_filtered_scroll (videoId : string) : M bool :=
  let filter := id_text_filter (idPattern videoId) in
  let r := {| scroll_filter := Some filter;
              scroll_limit := 1;
              scroll_offset := None;
              scroll_with_payload := WithPayload |} in
  results <- call (Scroll r) (scroll qdrantClient r) ;;
  ret (Nat.ltb 0 (List.length (points results))).

(** "Last resort: get first few results and check client-side" *)
Definition exists_by_first_page (videoId : string) : M bool :=
  let r := page_request None WithPayload in
  allResults <- call (Scroll r) (scroll qdrantClient r) ;;
  ret (existsb (payload_id_startsWith (idPattern videoId))
         (points allResults)).

Definition doesTranscriptExist_qdrant (videoId : string) : M bool :=
  try_catch (exists_by_count videoId)
    (fun error =>
       try_catch (exists_by_filtered_scroll videoId)
         (fun scrollFilterError =>
            try_catch (exists_by_first_page videoId)
              (fun scrollError => ret false))).

(** The paging loop of the second tier of delete: the backend keys of the
    points whose payload id starts with the pattern. *)
Definition collect_matching (fuel : nat) (pattern : string)
  : M (list string) :=
  doWhile fuel
    (fun chunksToDelete offset =>
       let r := page_request offset WithPayload in
       response <- call (Scroll r) (scroll qdrantClient r) ;;
       ret (chunksToDelete ++
              map pt_id (filter (payload_id_startsWith pattern)
                           (points response)),
            next_page_offset response))
    [] None.

(** [for (let i = 0; i < chunksToDelete.length; i += batchSize)]: the
    values [i] takes. *)
Definition batch_starts (batchSize len : nat) : list nat :=
  map (fun k => k * batchSize) (seq 0 ((len + batchSize - 1) / batchSize)).

Definition delete_in_batches (chunksToDelete : list string) : M nat :=
  let batchSize := 100 in
  forEachM
    (fun deletedCount i =>
       let batch := slice i (i + batchSize) chunksToDelete in
       _ <- call (Delete (DeletePoints batch))
              (delete qdrantClient (DeletePoints batch)) ;;
       ret (deletedCount + List.length batch))
    (batch_starts batchSize (List.length chunksToDelete)) 0.

(** The two attempts of [deleteYoutubeTranscriptChunks]: the body of the
    outer [try], and the body of the [try] in its [catch]. *)
Definition delete_by_filter (videoId : string) : M nat :=
  let filter := id_text_filter (idPattern videoId) in
  count_ <- call (Count filter) (count qdrantClient filter) ;;
  if Nat.eqb count_ 0 then ret 0
  else
    _ <- call (Delete (DeleteFilter filter))
           (delete qdrantClient (DeleteFilter filter)) ;;
    ret count_.

Definition delete_by_scan (fuel : nat) (videoId : string) : M nat :=
  chunksToDelete <- collect_matching fuel (idPattern videoId) ;;
  if Nat.eqb (List.length chunksToDelete) 0 then ret 0
  else delete_in_batches chunksToDelete.

Definition deleteYoutubeTranscriptChunks_qdrant (fuel : nat)
  (videoId : string) : M nat :=
  try_catch (delete_by_filter videoId)
    (fun error =>
       try_catch (delete_by_scan fuel videoId)
         (fun fallbackError => throw error)).

(** The paging loop of the second tier of count. *)
Definition count_matching (fuel : nat) (pattern : string) : M nat :=
  doWhile fuel
    (fun count_ offset =>
       let r := page_request offset WithPayload in
       response <- call (Scroll r) (scroll qdrantClient r) ;;
       ret (count_ +
              List.length (filter (payload_id_startsWith pattern)
                             (points response)),
            next_page_offset response))
    0 None.

Definition count_by_filter (videoId : string) : M nat :=
  let filter := id_text_filter (idPattern videoId) in
  countResponse <- call (Count filter) (count qdrantClient filter) ;;
  ret countResponse.

Definition countYoutubeTranscriptChunks_qdrant (fuel : nat)
  (videoId : string) : M nat :=
  try_catch (count_by_filter videoId)
    (fun error =>
       try_catch (count_matching fuel (idPattern videoId))
         (fun scrollError => throw error)).

(** *** Listings: the Qdrant functions *)

Definition getUniqueDocumentNames_qdrant (fuel : nat) : M (list string) :=
  try_catch
    (doWhile fuel
       (fun documentNames offset =>
          let r := page_request offset (Include ["documentName"]) in
          response <- call (Scroll r) (scroll qdrantClient r) ;;
          ret (fold_left
                 (fun names point =>
                    match p_documentName (pt_payload point) with
                    | Some name =>
                        if truthy name then set_add name names else names
                    | None => names
                    end)
                 (points response) documentNames,
               next_page_offset response))
       [] None)
    (fun error => ret []).

(** The object literal built for every point of a page. *)
Definition point_result (point : PointRecord) : SearchResult N :=
  let payload := pt_payload point in
  {| sr_id := p_id payload;
     sr_documentName := p_documentName payload;
     sr_content := p_content payload;
     sr_enhancedContent := p_enhancedContent payload;
     sr_title := p_title payload;
     sr_summary := p_summary payload;
     sr_sourceFile := p_sourceFile payload;
     sr_domains := domains_or_default (p_domains payload);
     score := num_one |}.

Definition getChunksByDocumentName_qdrant (fuel : nat) (name : string)
  : M (list (SearchResult N)) :=
  let filter := {| must := [MatchValue "documentName" name];
                   should := [] |} in
  try_catch
    (doWhile fuel
       (fun chunks offset =>
          let r := {| scroll_filter := Some filter;
                      scroll_limit := 100;
                      scroll_offset := offset;
                      scroll_with_payload := WithPayload |} in
          response <- call (Scroll r) (scroll qdrantClient r) ;;
          let resultsPage := map point_result (points response) in
          ret (chunks ++ resultsPage, next_page_offset response))
       [] None)
    (fun error => ret []).

(** *** [deleteChunksByIds]: the Qdrant function *)

Definition deleteChunksByIds_qdrant (chunkIds : list string) : M nat :=
  if Nat.eqb (List.length chunkIds) 0 then ret 0
  else
    try_catch
      (let filter := {| must := [];
                        should := map (MatchValue "id") chunkIds |} in
       pointCount <- call (Count filter) (count qdrantClient filter) ;;
       if Nat.eqb pointCount 0 then ret 0
       else
         _ <- call (Delete (DeleteFilter filter))
                (delete qdrantClient (DeleteFilter filter)) ;;
         ret pointCount)
      (fun error => ret 0).

(** ** The fallback service (the Resilience Coordinator)

    [./fallback-service] is imported by [database-service.ts] and is not
    among the sources at hand. *)

(** Modelled from the spec: the state of the class [FallbackService]
    (section 4.1): a degraded flag, default false, and the set of operation
    names for which a warning has been emitted. *)
Record FallbackService : Type := {
  degraded : bool;
  warned : list string
}.

Definition new_FallbackService : FallbackService :=
  {| degraded := false; warned := [] |}.

(** Modelled from the spec: [isFallbackActive] is the Coordinator's
    [isDegraded] (section 4.1): it returns the current degraded flag. *)
Definition isFallbackActive (f : FallbackService) : bool := degraded f.

(** What a call of [withFallback] did, in order; kept to state which of
    the two functions ran. *)
Inductive Event : Type :=
  | RanPrimary (operationName : string)
  | Warned (operationName : string)
  | RanFallback (operationName : string).

(** The process: the fallback service, the module-level map, the backend
    with the requests it has seen, and the events so far. *)
Record System : Type := {
  fallbackService : FallbackService;
  inMemoryDocuments : MemStore N;
  world : World;
  journal : list Event
}.

(** Modelled from the spec: [withFallback] is the Coordinator's [execute]
    (section 4.1).  If [forceFallback] is true or the degraded flag is set,
    run [fallbackFn] and return its result without attempting [primaryFn].
    Otherwise run [primaryFn]; if it raises, set the degraded flag, emit a
    warning for [operationName] unless one was emitted before, then run
    [fallbackFn] and return its result. *)
Definition withFallback {A} (operationName : string)
  (fallbackFn : MemStore N -> A * MemStore N) (primaryFn : M A)
  (forceFallback : bool) (s : System) : option (A * System) :=
  if forceFallback || degraded (fallbackService s) then
    let r := fallbackFn (inMemoryDocuments s) in
    Some (fst r,
          {| fallbackService := fallbackService s;
             inMemoryDocuments := snd r;
             world := world s;
             journal := journal s ++ [RanFallback operationName] |})
  else
    match primaryFn (world s) with
    | None => None
    | Some (Returned a, w) =>
        Some (a,
              {| fallbackService := fallbackService s;
                 inMemoryDocuments := inMemoryDocuments s;
                 world := w;
                 journal := journal s ++ [RanPrimary operationName] |})
    | Some (Thrown e, w) =>
        let seen := existsb (String.eqb operationName)
                      (warned (fallbackService s)) in
        let r := fallbackFn (inMemoryDocuments s) in
        Some (fst r,
              {| fallbackService :=
                   {| degraded := true;
                      warned := set_add operationName
                                  (warned (fallbackService s)) |};
                 inMemoryDocuments := snd r;
                 world := w;
                 journal := journal s ++
                            RanPrimary operationName ::
                            (if seen then [] else [Warned operationName]) ++
                            [RanFallback operationName] |})
    end.

(** ** The public operations of [DatabaseService]

    The paging loops of the Qdrant functions take their fuel from the
    caller of the model. *)

Definition addDocumentChunks (documents : list (DocumentChunk N))
  (s : System) : option (unit * System) :=
  withFallback "addDocumentChunks"
    (fun mem => (tt, addDocumentChunks_fallback documents mem))
    (addDocumentChunks_qdrant documents)
    (isFallbackActive (fallbackService s)) s.

Definition searchByVector (queryVector : list N) (limit : nat) (s : System)
  : option (list (SearchResult N) * System) :=
  withFallback "searchByVector"
    (fun mem => (searchByVector_fallback queryVector limit mem, mem))
    (searchByVector_qdrant queryVector limit)
    (isFallbackActive (fallbackService s)) s.

Definition doesTranscriptExist (videoId : string) (s : System)
  : option (bool * System) :=
  withFallback "doesTranscriptExist"
    (fun mem => (doesTranscriptExist_fallback videoId mem, mem))
    (doesTranscriptExist_qdrant videoId)
    (isFallbackActive (fallbackService s)) s.

Definition deleteYoutubeTranscriptChunks (fuel : nat) (videoId : string)
  (s : System) : option (nat * System) :=
  withFallback "deleteYoutubeTranscriptChunks"
    (deleteYoutubeTranscriptChunks_fallback videoId)
    (deleteYoutubeTranscriptChunks_qdrant fuel videoId)
    (isFallbackActive (fallbackService s)) s.

Definition countYoutubeTranscriptChunks (fuel : nat) (videoId : string)
  (s : System) : option (nat * System) :=
  withFallback "countYoutubeTranscriptChunks"
    (fun mem => (countYoutubeTranscriptChunks_fallback videoId mem, mem))
    (countYoutubeTranscriptChunks_qdrant fuel videoId)
    (isFallbackActive (fallbackService s)) s.

Definition getUniqueDocumentNames (fuel : nat) (s : System)
  : option (list string * System) :=
  withFallback "getUniqueDocumentNames"
    (fun mem => (getUniqueDocumentNames_fallback mem, mem))
    (getUniqueDocumentNames_qdrant fuel)
    (isFallbackActive (fallbackService s)) s.

Definition getChunksByDocumentName (fuel : nat) (name : string) (s : System)
  : option (list (SearchResult N) * System) :=
  withFallback "getChunksByDocumentName"
    (fun mem => (getChunksByDocumentName_fallback name mem, mem))
    (getChunksByDocumentName_qdrant fuel name)
    (isFallbackActive (fallbackService s)) s.

Definition deleteChunksByIds (chunkIds : list string) (s : System)
  : option (nat * System) :=
  withFallback "deleteChunksByIds"
    (deleteChunksByIds_fallback chunkIds)
    (deleteChunksByIds_qdrant chunkIds)
    (isFallbackActive (fallbackService s)) s.

(** *** Any operation, and sequences of operations *)

(** One call of [withFallback], with the arguments a caller may pass. *)
Record Operation : Type := {
  op_result : Type;
  op_name : string;
  op_fallback : MemStore N -> op_result * MemStore N;
  op_primary : M op_result;
  op_force : bool
}.

Definition run (o : Operation) (s : System) : option (op_result o * System) :=
  withFallback (op_name o) (op_fallback o) (op_primary o) (op_force o) s.

(** [later s s']: the process gets from [s] to [s'] by calls of
    operations. *)
Inductive later : System -> System -> Prop :=
  | later_now s : later s s
  | later_call s s1 s2 (o : Operation) (r : op_result o) :
      later s s1 -> run o s1 = Some (r, s2) -> later s s2.

End Primary.

Arguments World N St : clear implicits.
Arguments System N St : clear implicits.
Arguments M N St A : clear implicits.
Arguments Operation N St : clear implicits.

(** ** Vocabulary of the properties *)

(** A component that is zero: [+0] or [-0]. *)
Definition is_zero (x : float) : Prop := x = 0%float \/ x = neg_zero.

(** A vector of zero magnitude: every component is zero. *)
Definition zero_vector (v : list float) : Prop := Forall is_zero v.

Section Vocabulary.

Context {N : Type} {num : JsNumber N} {St : Type}.

(** The world after one request [r] that left the backend in [st]. *)
Definition sent (r : Request N) (st : St) (w : World N St) : World N St :=
  {| backend := st; requests := requests w ++ [r]; uuids := uuids w |}.

(** What a call does when only the fallback function runs: its result is
    the fallback's, the map is the one the fallback leaves, the backend and
    the fallback service are untouched and the journal gains one
    [RanFallback]. *)
Definition fallback_only (o : Operation N St) (s : System N St)
  : op_result o * System N St :=
  (fst (op_fallback o (inMemoryDocuments s)),
   {| fallbackService := fallbackService s;
      inMemoryDocuments := snd (op_fallback o (inMemoryDocuments s));
      world := world s;
      journal := journal s ++ [RanFallback (op_name o)] |}).

(** The public operations are such calls. *)
Definition searchByVector_op (qdrantClient : QdrantClient N St)
  (queryVector : list N) (limit : nat) (force : bool) : Operation N St :=
  {| op_result := list (SearchResult N);
     op_name := "searchByVector";
     op_fallback := fun mem =>
       (searchByVector_fallback queryVector limit mem, mem);
     op_primary := searchByVector_qdrant qdrantClient queryVector limit;
     op_force := force |}.

Definition addDocumentChunks_op (qdrantClient : QdrantClient N St)
  (uuidv4 : nat -> string) (documents : list (DocumentChunk N))
  (force : bool) : Operation N St :=
  {| op_result := unit;
     op_name := "addDocumentChunks";
     op_fallback := fun mem => (tt, addDocumentChunks_fallback documents mem);
     op_primary := addDocumentChunks_qdrant qdrantClient uuidv4 documents;
     op_force := force |}.

End Vocabulary.

Section NumberVocabulary.

Context {N : Type} {num : JsNumber N}.


(** A result with its domains replaced, and nothing else. *)
Definition with_domains (d : option (list string)) (r : SearchResult N)
  : SearchResult N :=
  {| sr_id := sr_id r;
     sr_documentName := sr_documentName r;
     sr_content := sr_content r;
     sr_enhancedContent := sr_enhancedContent r;
     sr_title := sr_title r;
     sr_summary := sr_summary r;
     sr_sourceFile := sr_sourceFile r;
     sr_domains := d;
     score := score r |}.

(** A result with its score replaced, and nothing else. *)
Definition with_score (s : N) (r : SearchResult N) : SearchResult N :=
  {| sr_id := sr_id r;
     sr_documentName := sr_documentName r;
     sr_content := sr_content r;
     sr_enhancedContent := sr_enhancedContent r;
     sr_title := sr_title r;
     sr_summary := sr_summary r;
     sr_sourceFile := sr_sourceFile r;
     sr_domains := sr_domains r;
     score := s |}.

End NumberVocabulary.

Section StoreVocabulary.

Context {N : Type}.

(** The map as the code fills it: no key twice, and every record under
    its own id ([inMemoryDocuments.set(doc.id, { document: doc })]). *)
Definition well_keyed (mem : MemStore N) : Prop :=
  NoDup (JsMap.keys mem) /\ Forall (fun e => fst e = id (snd e)) mem.

(** The entry a record is written as. *)
Definition entry_of (doc : DocumentChunk N) : string * DocumentChunk N :=
  (id doc, doc).

(** A record is a chunk of the video: its id starts with the pattern. *)
Definition about (videoId : string) (doc : DocumentChunk N) : bool :=
  startsWith (id doc) (idPattern videoId).

(** The batches the delete of the second tier sends. *)
Definition batches (chunksToDelete : list string) : list (list string) :=
  map (fun i => slice i (i + 100) chunksToDelete)
    (batch_starts 100 (List.length chunksToDelete)).

End StoreVocabulary.

Section WalkVocabulary.

Context {N : Type} {St : Type}.
Variable qdrantClient : QdrantClient N St.

(** [walk mk offset st pages failure st']: asked for the page at [offset]
    in state [st], and then for the page each answer names as long as it
    names one (a truthy [next_page_offset]), the backend answers with
    [pages]; it ends in state [st'], after a last page that names no other,
    or after a request that raised [failure].  [mk] builds the request for
    an offset. *)
Inductive walk (mk : option string -> ScrollRequest)
  : option string -> St -> list ScrollResponse -> option Error -> St -> Prop :=
  | walk_last offset st page st' :
      scroll qdrantClient (mk offset) st = (Returned page, st') ->
      truthy_opt (next_page_offset page) = false ->
      walk mk offset st [page] None st'
  | walk_raise offset st e st' :
      scroll qdrantClient (mk offset) st = (Thrown e, st') ->
      walk mk offset st [] (Some e) st'
  | walk_next offset st page st' pages failure st'' :
      scroll qdrantClient (mk offset) st = (Returned page, st') ->
      truthy_opt (next_page_offset page) = true ->
      walk mk (next_page_offset page) st' pages failure st'' ->
      walk mk offset st (page :: pages) failure st''.

(** The points a write sends for a batch, the first under the [start]-th
    identifier drawn. *)
Fixpoint points_from (uuidv4 : nat -> string) (start : nat)
  (documents : list (DocumentChunk N)) : list (PointStruct N) :=
  match documents with
  | [] => []
  | doc :: documents' =>
      {| ps_id := uuidv4 start;
         ps_vector := embedding doc;
         ps_payload := payload_of doc |}
      :: points_from uuidv4 (S start) documents'
  end.

(** All the points of a sequence of pages. *)
Definition all_points (pages : list ScrollResponse) : list PointRecord :=
  List.concat (map points pages).

(** The request of the paging loop of [getChunksByDocumentName]. *)
Definition named_page_request (name : string) (offset : option string)
  : ScrollRequest :=
  {| scroll_filter := Some {| must := [MatchValue "documentName" name];
                              should := [] |};
     scroll_limit := 100;
     scroll_offset := offset;
     scroll_with_payload := WithPayload |}.

End WalkVocabulary.

(** ** Sample backends

    Two clients to run the model on: one that cannot be reached, and a
    collection held in a list, which pages its points [limit] at a time and
    names the next page by the key of its first point. *)

Module Sample.

Section Backend.

Context {N : Type} {num : JsNumber N}.

(** Every request fails. *)
Definition unreachable : QdrantClient N unit :=
  let down {A} (st : unit) : Outcome A * unit := (Thrown "ECONNREFUSED", st) in
  {| getCollections := down;
     createCollection := fun _ _ => down;
     createPayloadIndex := fun _ _ => down;
     upsert := fun _ => down;
     search := fun _ => down;
     count := fun _ => down;
     scroll := fun _ => down;
     delete := fun _ => down |}.

(** A collection, and whether the backend accepts a [text] condition. *)
Record Collection : Type := {
  stored : list (PointStruct N);
  text_match : bool
}.

Definition field (key : string) (p : Payload) : option string :=
  if String.eqb key "id" then p_id p
  else if String.eqb key "documentName" then p_documentName p
  else if String.eqb key "title" then p_title p
  else None.

Definition holds (c : Condition) (p : Payload) : bool :=
  match c with
  | MatchText key text =>
      match field key p with
      | Some s => startsWith s text
      | None => false
      end
  | MatchValue key value =>
      match field key p with
      | Some s => String.eqb s value
      | None => false
      end
  end.

Definition passes (f : Filter) (pt : PointStruct N) : bool :=
  forallb (fun c => holds c (ps_payload pt)) (must f) &&
  match should f with
  | [] => true
  | cs => existsb (fun c => holds c (ps_payload pt)) cs
  end.

Definition is_text (c : Condition) : bool :=
  match c with
  | MatchText _ _ => true
  | MatchValue _ _ => false
  end.

Definition accepted (c : Collection) (f : Filter) : bool :=
  text_match c || negb (existsb is_text (must f ++ should f)).

Definition bad_request {A} (c : Collection) : Outcome A * Collection :=
  (Thrown "Bad Request", c).

Fixpoint from_key (key : string) (l : list (PointStruct N))
  : list (PointStruct N) :=
  match l with
  | [] => []
  | pt :: l' => if String.eqb (ps_id pt) key then l else from_key key l'
  end.

Definition as_record (pt : PointStruct N) : PointRecord :=
  {| pt_id := ps_id pt; pt_payload := ps_payload pt |}.

Definition scroll_page (r : ScrollRequest) (c : Collection)
  : Outcome ScrollResponse * Collection :=
  let candidates :=
    match scroll_filter r with
    | Some f => filter (passes f) (stored c)
    | None => stored c
    end in
  let rest :=
    match scroll_offset r with
    | Some key => from_key key candidates
    | None => candidates
    end in
  let answer :=
    {| points := map as_record (firstn (scroll_limit r) rest);
       next_page_offset := option_map (@ps_id N)
                             (nth_error rest (scroll_limit r)) |} in
  match scroll_filter r with
  | Some f => if accepted c f then (Returned answer, c) else bad_request c
  | None => (Returned answer, c)
  end.

Definition remove (sel : PointStruct N -> bool) (c : Collection)
  : Collection :=
  {| stored := filter (fun pt => negb (sel pt)) (stored c);
     text_match := text_match c |}.

Definition hit (queryVector : list N) (pt : PointStruct N) : ScoredPoint N :=
  {| hit_score := cosineSimilarity queryVector (ps_vector pt);
     hit_payload := ps_payload pt |}.

Definition paged : QdrantClient N Collection :=
  {| getCollections := fun c => (Returned ["knowledge_base"], c);
     createCollection := fun _ _ c => (Returned tt, c);
     createPayloadIndex := fun _ _ c => (Returned tt, c);
     upsert := fun pts c =>
       (Returned tt,
        {| stored :=
             filter (fun pt => negb (existsb (fun q => String.eqb (ps_id q) (ps_id pt)) pts))
               (stored c) ++ pts;
           text_match := text_match c |});
     search := fun r c =>
       (Returned
          (slice 0 (search_limit r)
             (sort (fun a b => num_sub (hit_score b) (hit_score a))
                (map (hit (search_vector r)) (stored c)))), c);
     count := fun f c =>
       if accepted c f
       then (Returned (List.length (filter (passes f) (stored c))), c)
       else bad_request c;
     scroll := scroll_page;
     delete := fun r c =>
       match r with
       | DeleteFilter f =>
           if accepted c f then (Returned tt, remove (passes f) c)
           else bad_request c
       | DeletePoints ids =>
           (Returned tt,
            remove (fun pt => existsb (String.eqb (ps_id pt)) ids) c)
       end |}.

(** The identifiers drawn in the samples: [uuid-0], [uuid-1], ... in
    unary. *)
Fixpoint uuid (n : nat) : string :=
  match n with
  | 0 => "uuid"
  | S n' => String.append (uuid n') "'"
  end.

Definition fresh_world {St} (st : St) : World N St :=
  {| backend := st; requests := []; uuids := 0 |}.

(** The process at its start, over a given backend and map. *)
Definition boot {St} (st : St) (mem : MemStore N) : System N St :=
  {| fallbackService := new_FallbackService;
     inMemoryDocuments := mem;
     world := fresh_world st;
     journal := [] |}.

(** A chunk with the given id, name, domains and embedding, and nothing
    else. *)
Definition chunk (i name : string) (d : option (list string))
  (e : list N) : DocumentChunk N :=
  {| id := i; documentName := name; content := "";
     enhancedContent := None; title := None; summary := None;
     sourceFile := None; domains := d; embedding := e |}.

End Backend.

(** A point whose payload id is [i], under the key [key]. *)
Definition point (key i : string) : PointStruct float :=
  {| ps_id := key;
     ps_vector := [1%float];
     ps_payload := payload_of (chunk i "doc" None [1%float]) |}.

(** A hundred points of a PDF, then one chunk of the transcript of the
    video [abc]; the backend refuses [text] conditions. *)
Definition crowded : Collection (N := float) :=
  {| stored := map (fun k => point (uuid k) "pdf_report_0") (seq 0 100) ++
               [point "last" "youtube_abc_0"];
     text_match := false |}.

(** Two chunks of the transcript of [abc] and one of [xyz], on a backend
    that accepts [text] conditions. *)
Definition tidy : Collection (N := float) :=
  {| stored := [point "k0" "youtube_abc_0"; point "k1" "youtube_abc_1";
                point "k2" "youtube_xyz_0"];
     text_match := true |}.

(** Five chunks of one talk, written without domains. *)
Definition untagged : list (DocumentChunk float) :=
  [chunk "youtube_talk_0" "talk" None [1%float];
   chunk "youtube_talk_1" "talk" None [1%float];
   chunk "youtube_talk_2" "talk" None [1%float];
   chunk "youtube_talk_3" "talk" None [1%float];
   chunk "youtube_talk_4" "talk" None [1%float]].

Definition vacant : Collection (N := float) :=
  {| stored := []; text_match := true |}.

(** The two pages in which the backend serves [crowded]. *)
Definition crowded_pages : list ScrollResponse :=
  [{| points := map as_record (firstn 100 (stored crowded));
      next_page_offset := Some "last" |};
   {| points := [as_record (point "last" "youtube_abc_0")];
      next_page_offset := None |}].

(** The one page in which the backend serves [tidy]. *)
Definition tidy_page : ScrollResponse :=
  {| points := map as_record (stored tidy); next_page_offset := None |}.

(** A write against a backend that cannot be reached. *)
Definition failing_write : Operation float unit :=
  addDocumentChunks_op unreachable uuid
    [chunk "youtube_a_0" "a" None [1%float]] false.

End Sample.

(** * Properties *)

(** ** Cosine similarity on JavaScript numbers *)

Module Cosine.

Lemma square_of_zero (x : float) : is_zero x -> PrimFloat.mul x x = 0%float.
Proof. intros [-> | ->]; reflexivity. Qed.

(** The loop keeps the sum of squares of a zero vector at [+0], whatever
    the other vector holds. *)
Lemma cosineLoop_zero_left (a : list float) :
  zero_vector a ->
  forall b d bm, snd (fst (cosineLoop a b d 0%float bm)) = 0%float.
Proof.
  induction 1 as [| x a Hx _ IH]; intros b d bm.
  - reflexivity.
  - destruct b as [| y b]; [reflexivity |].
    cbn [cosineLoop num_add num_mul float_number].
    rewrite (square_of_zero Hx).
    change (PrimFloat.add 0 0) with 0%float.
    apply IH.
Qed.

Lemma cosineLoop_zero_right (b : list float) :
  zero_vector b ->
  forall a d am, snd (cosineLoop a b d am 0%float) = 0%float.
Proof.
  induction 1 as [| y b Hy _ IH]; intros a d am.
  - destruct a; reflexivity.
  - destruct a as [| x a]; [reflexivity |].
    cbn [cosineLoop num_add num_mul float_number].
    rewrite (square_of_zero Hy).
    change (PrimFloat.add 0 0) with 0%float.
    apply IH.
Qed.

(** The guard of the code, as it stands: a computed magnitude that is
    [=== 0] gives 0. *)
Lemma cosineSimilarity_guard (a b : list float) (d am bm : float) :
  cosineLoop a b 0%float 0%float 0%float = (d, am, bm) ->
  PrimFloat.eqb (PrimFloat.sqrt am) 0 = true \/
  PrimFloat.eqb (PrimFloat.sqrt bm) 0 = true ->
  cosineSimilarity a b = 0%float.
Proof.
  intros Hloop Hz. unfold cosineSimilarity.
  destruct (negb (Nat.eqb (List.length a) (List.length b))); [reflexivity |].
  cbn [num_zero num_sqrt num_eqb float_number]. rewrite Hloop.
  destruct Hz as [-> | ->]; [reflexivity | now rewrite orb_true_r].
Qed.

(** C7. For every pair of vectors of which one has zero magnitude (all
    its components are zero), both included, the cosine similarity of the
    Local Store is exactly 0, and so it is not NaN. *)
Theorem cosineSimilarity_zero_magnitude (a b : list float) :
  zero_vector a \/ zero_vector b ->
  cosineSimilarity a b = 0%float /\
  PrimFloat.is_nan (cosineSimilarity a b) = false.
Proof.
  intros H.
  assert (E : cosineSimilarity a b = 0%float).
  { destruct (cosineLoop a b 0%float 0%float 0%float) as [[d am] bm] eqn:Hloop.
    apply (cosineSimilarity_guard a b Hloop).
    destruct H as [Ha | Hb].
    - left. pose proof (cosineLoop_zero_left Ha b 0%float 0%float) as Hz.
      cbn [num_zero float_number] in Hz.
      rewrite Hloop in Hz. cbn in Hz. subst am. reflexivity.
    - right. pose proof (cosineLoop_zero_right Hb a 0%float 0%float) as Hz.
      cbn [num_zero float_number] in Hz.
      rewrite Hloop in Hz. cbn in Hz. subst bm. reflexivity. }
  split; [exact E | rewrite E; reflexivity].
Qed.

Lemma cosineSimilarity_zero_magnitude_witness :
  (zero_vector [0%float; neg_zero] \/ zero_vector [nan; infinity]) /\
  cosineSimilarity [0%float; neg_zero] [nan; infinity] = 0%float /\
  PrimFloat.is_nan (cosineSimilarity [0%float; neg_zero] [nan; infinity])
  = false.
Proof.
  assert (Hz : zero_vector [0%float; neg_zero]).
  { constructor; [left; reflexivity |].
    constructor; [right; reflexivity | constructor]. }
  split.
  - left. exact Hz.
  - apply (@cosineSimilarity_zero_magnitude [0%float; neg_zero] [nan; infinity]).
    left. exact Hz.
Defined.

End Cosine.

(** ** Routing between the two stores *)

Module Coordinator.

Section Routing.

Context {N : Type} {num : JsNumber N} {St : Type}.

Lemma run_degraded (o : Operation N St) (s : System N St) :
  degraded (fallbackService s) = true ->
  run o s = Some (fallback_only o s).
Proof.
  intros Hd. unfold run, withFallback, fallback_only.
  rewrite Hd, orb_true_r. reflexivity.
Qed.

Lemma run_forced (o : Operation N St) (s : System N St) :
  op_force o = true ->
  run o s = Some (fallback_only o s).
Proof.
  intros Hf. unfold run, withFallback, fallback_only.
  rewrite Hf. reflexivity.
Qed.

(** The first failure of a primary function sets the flag. *)
Lemma run_failure (o : Operation N St) (s : System N St) e w :
  degraded (fallbackService s) = false ->
  op_force o = false ->
  op_primary o (world s) = Some (Thrown e, w) ->
  exists s1,
    run o s = Some (fst (op_fallback o (inMemoryDocuments s)), s1) /\
    degraded (fallbackService s1) = true /\
    world s1 = w.
Proof.
  intros Hd Hf Hp. unfold run, withFallback.
  rewrite Hd, Hf, Hp. cbn [orb].
  eexists. split; [reflexivity |]. split; reflexivity.
Qed.

(** Once set, the flag stays set and the backend sees no request, however
    many operations are called. *)
Lemma later_degraded (s s' : System N St) :
  later s s' ->
  degraded (fallbackService s) = true ->
  degraded (fallbackService s') = true /\ world s' = world s.
Proof.
  induction 1 as [s | s s1 s2 o r _ IH Hrun]; intros Hd.
  - split; [exact Hd | reflexivity].
  - destruct (IH Hd) as [Hd1 Hw1].
    rewrite (run_degraded o _ Hd1) in Hrun.
    injection Hrun as _ <-. cbn. split; assumption.
Qed.

(** C1. The degraded flag is global.  When the primary function of any
    operation fails, the call answers with its fallback and sets the flag;
    from then on, after any number of calls of any operations, a call of
    any operation runs its fallback function only and returns its result:
    the primary function is not run and the backend receives no request. *)
Theorem degraded_flag_is_global (o : Operation N St) (s : System N St) e w :
  degraded (fallbackService s) = false ->
  op_force o = false ->
  op_primary o (world s) = Some (Thrown e, w) ->
  exists s1,
    run o s = Some (fst (op_fallback o (inMemoryDocuments s)), s1) /\
    degraded (fallbackService s1) = true /\
    forall s2, later s1 s2 ->
      degraded (fallbackService s2) = true /\
      world s2 = world s1 /\
      forall o' : Operation N St, run o' s2 = Some (fallback_only o' s2).
Proof.
  intros Hd Hf Hp.
  destruct (run_failure o s Hd Hf Hp) as (s1 & Hrun & Hd1 & _).
  exists s1. split; [exact Hrun |]. split; [exact Hd1 |].
  intros s2 Hlater.
  destruct (later_degraded Hlater Hd1) as [Hd2 Hw2].
  split; [exact Hd2 |]. split; [exact Hw2 |].
  intros o'. apply run_degraded. exact Hd2.
Qed.

Lemma searchByVector_run qdrantClient queryVector limit (s : System N St) :
  searchByVector qdrantClient queryVector limit s =
  run (searchByVector_op qdrantClient queryVector limit
         (isFallbackActive (fallbackService s))) s.
Proof. reflexivity. Qed.

Lemma addDocumentChunks_run qdrantClient uuidv4 documents (s : System N St) :
  addDocumentChunks qdrantClient uuidv4 documents s =
  run (addDocumentChunks_op qdrantClient uuidv4 documents
         (isFallbackActive (fallbackService s))) s.
Proof. reflexivity. Qed.

(** A failed write sends the next search to the map. *)
Corollary search_after_failed_write qdrantClient uuidv4 documents
  queryVector limit (s s1 : System N St) e w :
  degraded (fallbackService s) = false ->
  addDocumentChunks_qdrant qdrantClient uuidv4 documents (world s)
  = Some (Thrown e, w) ->
  addDocumentChunks qdrantClient uuidv4 documents s = Some (tt, s1) ->
  searchByVector qdrantClient queryVector limit s1 =
  Some (searchByVector_fallback queryVector limit (inMemoryDocuments s1),
        {| fallbackService := fallbackService s1;
           inMemoryDocuments := inMemoryDocuments s1;
           world := world s1;
           journal := journal s1 ++ [RanFallback "searchByVector"] |}).
Proof.
  intros Hd Hp Hadd.
  rewrite addDocumentChunks_run in Hadd.
  destruct (run_failure
              (addDocumentChunks_op qdrantClient uuidv4 documents
                 (isFallbackActive (fallbackService s))) s Hd Hd Hp)
    as (s1' & Hrun & Hd1 & _).
  rewrite Hrun in Hadd. injection Hadd as <-.
  rewrite searchByVector_run.
  now rewrite (run_degraded _ _ Hd1).
Qed.

End Routing.

Lemma degraded_flag_is_global_witness :
  let s := Sample.boot tt [] in
  (degraded (fallbackService s) = false /\
   op_force Sample.failing_write = false /\
   op_primary Sample.failing_write (world s)
   = Some (Thrown "ECONNREFUSED",
           {| backend := tt;
              requests :=
                [Upsert [{| ps_id := "uuid"; ps_vector := [1%float];
                            ps_payload :=
                              payload_of
                                (Sample.chunk "youtube_a_0" "a" None
                                   [1%float]) |}]];
              uuids := 1 |})) /\
  exists s1,
    run Sample.failing_write s
    = Some (fst (op_fallback Sample.failing_write (inMemoryDocuments s)), s1) /\
    degraded (fallbackService s1) = true /\
    forall s2, later s1 s2 ->
      degraded (fallbackService s2) = true /\
      world s2 = world s1 /\
      forall o' : Operation float unit,
        run o' s2 = Some (fallback_only o' s2).
Proof.
  intros s. split.
  - repeat split.
  - eapply (@degraded_flag_is_global float unit Sample.failing_write s);
      reflexivity.
Defined.

(** A run: the backend cannot be reached, a write fails over to the map,
    and the search that follows goes to the map without a request. *)
Example failed_write_then_search :
  match run Sample.failing_write (Sample.boot tt []) with
  | Some (_, s1) =>
      match searchByVector Sample.unreachable [1%float] 10 s1 with
      | Some (results, s2) =>
          map (@sr_id float) results = [Some "youtube_a_0"] /\
          journal s2 = [RanPrimary "addDocumentChunks";
                        Warned "addDocumentChunks";
                        RanFallback "addDocumentChunks";
                        RanFallback "searchByVector"] /\
          List.length (requests (world s2)) = 1%nat
      | None => False
      end
  | None => False
  end.
Proof. vm_compute. repeat split. Qed.

End Coordinator.

(** ** The cascading tiers of the prefix queries *)

Module Tiers.

Section Cascade.

Context {N : Type} {num : JsNumber N} {St : Type}.
Variable qdrantClient : QdrantClient N St.

Lemma call_returned {A} (r : Request N) (f : St -> Outcome A * St)
  (w : World N St) o st :
  f (backend w) = (o, st) -> call r f w = Some (o, sent r st w).
Proof. intros H. unfold call. rewrite H. reflexivity. Qed.






(** C6 (amended). The last tier of the prefix existence check sends one
    unfiltered scroll request, of limit 100 and without offset, and answers
    whether some point of the page it got back has a payload id that starts
    with the pattern; it never asks for a further page. *)
Theorem last_tier_reads_first_page videoId (w : World N St) page st :
  scroll qdrantClient (page_request None WithPayload) (backend w)
  = (Returned page, st) ->
  exists_by_first_page qdrantClient videoId w
  = Some (Returned
            (existsb (payload_id_startsWith (idPattern videoId))
               (points page)),
          sent (Scroll (page_request None WithPayload)) st w).
Proof.
  intros Hs. unfold exists_by_first_page, bind.
  rewrite (call_returned (Scroll (page_request None WithPayload)) _ w Hs).
  reflexivity.
Qed.

End Cascade.



Lemma last_tier_reads_first_page_witness :
  let w := Sample.fresh_world Sample.crowded in
  exists_by_first_page Sample.paged "abc" w
  = Some (Returned false,
          sent (Scroll (page_request None WithPayload)) Sample.crowded w).
Proof.
  intros w.
  apply (@last_tier_reads_first_page float Sample.Collection Sample.paged
           "abc" w
           {| points := map Sample.as_record
                          (firstn 100 (Sample.stored Sample.crowded));
              next_page_offset := Some "last" |}
           Sample.crowded).
  reflexivity.
Defined.

(** C6, as stated, fails: the collection holds a record whose id starts
    with the pattern, as its 101st point, the first two tiers raise, and the
    last tier, and with it the operation, answers [false]. *)
Lemma match_beyond_first_page_missed :
  let w := Sample.fresh_world Sample.crowded in
  existsb (fun pt => payload_id_startsWith (idPattern "abc")
                       (Sample.as_record pt))
    (Sample.stored Sample.crowded) = true /\
  (exists w2,
     exists_by_count Sample.paged "abc" w = Some (Thrown "Bad Request",
       sent (Count (id_text_filter (idPattern "abc"))) Sample.crowded w) /\
     exists_by_filtered_scroll Sample.paged "abc"
       (sent (Count (id_text_filter (idPattern "abc"))) Sample.crowded w)
     = Some (Thrown "Bad Request", w2) /\
     exists w3,
       exists_by_first_page Sample.paged "abc" w2 = Some (Returned false, w3) /\
       doesTranscriptExist_qdrant Sample.paged "abc" w
       = Some (Returned false, w3)).
Proof.
  intros w. split; [reflexivity |].
  eexists. split; [reflexivity |]. split; [reflexivity |].
  eexists. split; reflexivity.
Qed.

End Tiers.

(** ** The Local Store *)

Module LocalStore.

Section Scenario.

Context {N : Type} {num : JsNumber N}.

(** C3 (amended). The prefix operations take a video id and match the ids
    that start with [youtube_] followed by it.  After the three records
    with ids [youtube_doc1_0], [youtube_doc1_1] and [youtube_doc2_0] are
    written to an empty map, the last under a non-empty document name that
    the other two do not bear, counting for [doc1] gives 2, deleting for
    [doc1] gives 2, and the document names listed afterwards contain the
    name of the third record and not the names of the first two. *)
Theorem three_records_scenario (d1 d2 d3 : DocumentChunk N) :
  id d1 = "youtube_doc1_0" ->
  id d2 = "youtube_doc1_1" ->
  id d3 = "youtube_doc2_0" ->
  truthy (documentName d3) = true ->
  documentName d1 <> documentName d3 ->
  documentName d2 <> documentName d3 ->
  let mem := addDocumentChunks_fallback [d1; d2; d3] JsMap.empty in
  countYoutubeTranscriptChunks_fallback "doc1" mem = 2 /\
  fst (deleteYoutubeTranscriptChunks_fallback "doc1" mem) = 2 /\
  let names :=
    getUniqueDocumentNames_fallback
      (snd (deleteYoutubeTranscriptChunks_fallback "doc1" mem)) in
  In (documentName d3) names /\
  ~ In (documentName d1) names /\
  ~ In (documentName d2) names.
Proof.
  destruct d1 as [i1 n1 ? ? ? ? ? ? ?], d2 as [i2 n2 ? ? ? ? ? ? ?],
    d3 as [i3 n3 ? ? ? ? ? ? ?].
  cbn [id documentName]. intros -> -> -> Ht Hn1 Hn2.
  cbv zeta.
  unfold countYoutubeTranscriptChunks_fallback,
    deleteYoutubeTranscriptChunks_fallback, getUniqueDocumentNames_fallback.
  cbn -[truthy]. rewrite Ht. cbn.
  repeat split; [now left | |]; intros [E | []]; congruence.
Qed.

End Scenario.

Lemma three_records_scenario_witness :
  let d1 := Sample.chunk "youtube_doc1_0" "first.pdf" None [1%float] in
  let d2 := Sample.chunk "youtube_doc1_1" "first.pdf" None [1%float] in
  let d3 := Sample.chunk "youtube_doc2_0" "second.pdf" None [1%float] in
  let mem := addDocumentChunks_fallback [d1; d2; d3] JsMap.empty in
  countYoutubeTranscriptChunks_fallback "doc1" mem = 2 /\
  fst (deleteYoutubeTranscriptChunks_fallback "doc1" mem) = 2 /\
  let names :=
    getUniqueDocumentNames_fallback
      (snd (deleteYoutubeTranscriptChunks_fallback "doc1" mem)) in
  In "second.pdf" names /\ ~ In "first.pdf" names /\ ~ In "first.pdf" names.
Proof.
  intros d1 d2 d3.
  apply (@three_records_scenario float d1 d2 d3);
    try reflexivity; discriminate.
Defined.

(** C3, as stated, fails: with the ids [doc1_0], [doc1_1] and [doc2_0]
    the count and the delete for [doc1] give 0, since no id starts with
    [youtube_doc1], and the name of the [doc1] records is still listed. *)
Lemma bare_prefix_matches_nothing :
  let d1 := Sample.chunk "doc1_0" "first.pdf" None [1%float] in
  let d2 := Sample.chunk "doc1_1" "first.pdf" None [1%float] in
  let d3 := Sample.chunk "doc2_0" "second.pdf" None [1%float] in
  let mem := addDocumentChunks_fallback [d1; d2; d3] JsMap.empty in
  countYoutubeTranscriptChunks_fallback "doc1" mem = 0 /\
  fst (deleteYoutubeTranscriptChunks_fallback "doc1" mem) = 0 /\
  getUniqueDocumentNames_fallback
    (snd (deleteYoutubeTranscriptChunks_fallback "doc1" mem))
  = ["first.pdf"; "second.pdf"].
Proof. repeat split. Qed.

End LocalStore.

(** ** Facts about the arrays and the map *)

Section Arrays.

Context {N : Type} {num : JsNumber N}.

Lemma In_sort_insert {A} (cmp : A -> A -> N) (x y : A) (l : list A) :
  In x (sort_insert cmp y l) <-> x = y \/ In x l.
Proof.
  induction l as [| z l IH]; cbn.
  - intuition congruence.
  - destruct (num_gtb (cmp y z) num_zero); cbn; rewrite ?IH;
      intuition congruence.
Qed.

(** Sorting neither adds nor drops an element. *)
Lemma In_sort {A} (cmp : A -> A -> N) (x : A) (l : list A) :
  In x (sort cmp l) <-> In x l.
Proof.
  unfold sort. induction l as [| y l IH]; cbn.
  - reflexivity.
  - rewrite In_sort_insert, IH. intuition congruence.
Qed.

Lemma In_slice {A} (i j : nat) (x : A) (l : list A) :
  In x (slice i j l) -> In x l.
Proof.
  unfold slice. intros H.
  rewrite <- (firstn_skipn i l). apply in_or_app. right.
  rewrite <- (firstn_skipn (j - i) (skipn i l)). apply in_or_app.
  now left.
Qed.

(** Every result of a search on the map is the scored image of a stored
    record. *)
Lemma searchByVector_fallback_In (queryVector : list N) (limit : nat)
  (mem : MemStore N) (r : SearchResult N) :
  In r (searchByVector_fallback queryVector limit mem) ->
  exists doc, In doc (JsMap.values mem) /\ r = scored_result queryVector doc.
Proof.
  unfold searchByVector_fallback. intros H.
  apply In_slice, In_sort, in_map_iff in H.
  destruct H as (doc & <- & Hdoc). now exists doc.
Qed.

Lemma get_set_same {V} (k : string) (v : V) (m : JsMap.t V) :
  JsMap.get k (JsMap.set k v m) = Some v.
Proof.
  induction m as [| [k' v'] m IH]; cbn.
  - now rewrite String.eqb_refl.
  - destruct (String.eqb k k') eqn:E; cbn.
    + now rewrite String.eqb_refl.
    + rewrite E. exact IH.
Qed.

(** The last record written under an id is the one the map holds. *)
Lemma addDocumentChunks_fallback_last (documents : list (DocumentChunk N))
  (doc : DocumentChunk N) (mem : MemStore N) :
  JsMap.get (id doc) (addDocumentChunks_fallback (documents ++ [doc]) mem)
  = Some doc.
Proof.
  unfold addDocumentChunks_fallback. rewrite fold_left_app. cbn.
  apply get_set_same.
Qed.

End Arrays.

(** ** Paging loops *)

Section Loops.

Context {N : Type} {St : Type}.

(** What holds of the state of a paging loop at its start and is kept by
    every page that returns, holds of what the loop returns. *)
Lemma doWhile_invariant {S} (P : S -> Prop)
  (body : S -> option string -> M N St (S * option string)) :
  (forall s offset w s' offset' w',
     P s -> body s offset w = Some (Returned (s', offset'), w') -> P s') ->
  forall fuel s offset w r w',
    P s -> doWhile fuel body s offset w = Some (Returned r, w') -> P r.
Proof.
  intros Hbody. induction fuel as [| fuel IH]; intros s offset w r w' Hs Hrun.
  - discriminate.
  - cbn [doWhile] in Hrun. unfold bind in Hrun.
    destruct (body s offset w) as [[[[s1 o1] | e] w1] |] eqn:Hb;
      try discriminate.
    pose proof (Hbody _ _ _ _ _ _ Hs Hb) as Hs1.
    cbn [fst snd] in Hrun.
    destruct (truthy_opt o1).
    + exact (IH _ _ _ _ _ Hs1 Hrun).
    + unfold ret in Hrun. injection Hrun as <- _. exact Hs1.
Qed.

(** Fuel only bounds the number of pages: a loop that ends with some fuel
    ends the same way with more. *)
Lemma doWhile_more_fuel {S}
  (body : S -> option string -> M N St (S * option string)) :
  forall fuel fuel' s offset w r,
    doWhile fuel body s offset w = Some r ->
    fuel <= fuel' ->
    doWhile fuel' body s offset w = Some r.
Proof.
  induction fuel as [| fuel IH]; intros fuel' s offset w r Hrun Hle.
  - discriminate.
  - destruct fuel' as [| fuel']; [lia |].
    cbn [doWhile] in *. unfold bind in *.
    destruct (body s offset w) as [[[[s1 o1] | e] w1] |]; try exact Hrun.
    cbn [fst snd] in *.
    destruct (truthy_opt o1); [| exact Hrun].
    apply IH; [exact Hrun | lia].
Qed.

(** The starts of the batches are the multiples of the batch size below
    the length, as the [for] loop visits them. *)
Lemma batch_starts_spec (len i : nat) :
  In i (batch_starts 100 len) <-> exists k, i = k * 100 /\ i < len.
Proof.
  unfold batch_starts. rewrite in_map_iff.
  pose proof (Nat.div_mod_eq (len + 100 - 1) 100) as Hd.
  pose proof (Nat.mod_upper_bound (len + 100 - 1) 100) as Hm.
  split.
  - intros (k & <- & Hk). apply in_seq in Hk. exists k. split; lia.
  - intros (k & -> & Hk). exists k. split; [reflexivity |].
    apply in_seq. lia.
Qed.

End Loops.

(** ** The shape of the results *)

Module Results.

Section Shape.

Context {N : Type} {num : JsNumber N} {St : Type}.
Variable qdrantClient : QdrantClient N St.

(** On the map the domains of a result are those of the record, absent
    when the record has none. *)
Lemma fallback_copies_domains (name : string) (mem : MemStore N)
  (r : SearchResult N) :
  In r (getChunksByDocumentName_fallback name mem) ->
  exists doc,
    In doc (JsMap.values mem) /\ documentName doc = name /\
    sr_domains r = domains doc.
Proof.
  unfold getChunksByDocumentName_fallback. intros H.
  apply in_map_iff in H. destruct H as (doc & <- & H).
  apply filter_In in H. destruct H as [Hin Hname].
  apply String.eqb_eq in Hname. now exists doc.
Qed.

(** On the primary path a result always has domains. *)
Lemma primary_defaults_domains (point : PointRecord) :
  sr_domains (point_result (N := N) point) <> None /\
  (p_domains (pt_payload point) = None ->
   sr_domains (point_result (N := N) point) = Some ["default"]).
Proof.
  unfold point_result, domains_or_default. cbn.
  destruct (p_domains (pt_payload point)); split; congruence.
Qed.

Lemma fallback_scores_one (name : string) (mem : MemStore N) :
  Forall (fun r => score r = num_one)
    (getChunksByDocumentName_fallback name mem).
Proof.
  unfold getChunksByDocumentName_fallback.
  apply Forall_forall. intros r H.
  apply in_map_iff in H. destruct H as (doc & <- & _). reflexivity.
Qed.

(** The Qdrant function never raises, and what it returns has score 1
    throughout. *)
Lemma primary_scores_one (fuel : nat) (name : string) (w w' : World N St)
  (o : Outcome (list (SearchResult N))) :
  getChunksByDocumentName_qdrant qdrantClient fuel name w = Some (o, w') ->
  exists rs, o = Returned rs /\ Forall (fun r => score r = num_one) rs.
Proof.
  unfold getChunksByDocumentName_qdrant, try_catch.
  match goal with
  | |- context [doWhile fuel ?b [] None w] =>
      set (body := b); destruct (doWhile fuel body [] None w)
        as [[[rs | e] w1] |] eqn:Hloop
  end; intros H; try discriminate.
  - injection H as <- _. exists rs. split; [reflexivity |].
    refine (doWhile_invariant
              (fun l => Forall (fun r => score r = num_one) l)
              body _ fuel [] None w _ Hloop); [| constructor].
    intros s offset w0 s' offset' w0' Hs Hb.
    subst body. unfold bind, call, ret in Hb.
    destruct (scroll qdrantClient _ (backend w0)) as [[response | e] st];
      [| discriminate].
    injection Hb as <- _ _.
    apply Forall_app. split; [exact Hs |].
    apply Forall_forall. intros r Hr.
    apply in_map_iff in Hr. destruct Hr as (point & <- & _). reflexivity.
  - unfold ret in H. injection H as <- _. exists []. split; constructor.
Qed.

End Shape.

(** C10. Every result of [getChunksByDocumentName] has score exactly 1.0,
    on the fallback path and on the primary path, which never raises; and
    1.0 is the score the similarity search gives to a perfect match. *)
Theorem chunks_by_name_score_one :
  (forall name (mem : MemStore float),
     Forall (fun r => score r = 1%float)
       (getChunksByDocumentName_fallback name mem)) /\
  (forall St (qdrantClient : QdrantClient float St) fuel name w o w',
     getChunksByDocumentName_qdrant qdrantClient fuel name w = Some (o, w') ->
     exists rs, o = Returned rs /\ Forall (fun r => score r = 1%float) rs) /\
  cosineSimilarity [1%float] [1%float] = 1%float.
Proof.
  split; [| split].
  - intros name mem.
    exact (fallback_scores_one (num := float_number) name mem).
  - intros St qdrantClient fuel name w o w'.
    exact (primary_scores_one (num := float_number) qdrantClient fuel name
             w (w' := w') (o := o)).
  - reflexivity.
Qed.

Lemma chunks_by_name_score_one_witness :
  exists rs,
    Returned (map (@point_result float float_number)
                (map Sample.as_record (Sample.stored Sample.tidy)))
    = Returned rs /\
    Forall (fun r => score r = 1%float) rs.
Proof.
  destruct chunks_by_name_score_one as (_ & H & _).
  apply (H Sample.Collection Sample.paged 1 "doc"
           (Sample.fresh_world Sample.tidy) _
           (sent
              (Scroll {| scroll_filter :=
                           Some {| must := [MatchValue "documentName" "doc"];
                                   should := [] |};
                         scroll_limit := 100;
                         scroll_offset := None;
                         scroll_with_payload := WithPayload |})
              Sample.tidy (Sample.fresh_world Sample.tidy))).
  reflexivity.
Defined.

(** C4, on the code. Five records are written without domains.  Read
    back from the map, by name or by search, every result has no domains
    at all; read back from the backend, every result has ["default"]. *)
Theorem absent_domains_default_on_primary_only :
  let mem := addDocumentChunks_fallback Sample.untagged JsMap.empty in
  map (@sr_domains float) (getChunksByDocumentName_fallback "talk" mem)
  = [None; None; None; None; None] /\
  map (@sr_domains float) (searchByVector_fallback [1%float] 10 mem)
  = [None; None; None; None; None] /\
  exists w rs w',
    addDocumentChunks_qdrant Sample.paged Sample.uuid Sample.untagged
      (Sample.fresh_world Sample.vacant) = Some (Returned tt, w) /\
    getChunksByDocumentName_qdrant Sample.paged 1 "talk" w
    = Some (Returned rs, w') /\
    map (@sr_domains float) rs
    = [Some ["default"]; Some ["default"]; Some ["default"];
       Some ["default"]; Some ["default"]].
Proof.
  split; [reflexivity |]. split; [reflexivity |].
  do 3 eexists. split; [reflexivity |]. split; reflexivity.
Qed.

End Results.

(** ** Empty arguments *)

Module Misuse.

(** C9. Adding no record and deleting no id are no-ops that succeed: on
    the map they leave it as it was, deleting returns 0; against the
    backend they return at once ([undefined] and 0), send no request and do
    not raise. *)
Theorem empty_arguments_are_noops :
  (forall N (mem : MemStore N), addDocumentChunks_fallback [] mem = mem) /\
  (forall N (mem : MemStore N), deleteChunksByIds_fallback [] mem = (0, mem)) /\
  (forall N St (qdrantClient : QdrantClient N St) uuidv4 (w : World N St),
     addDocumentChunks_qdrant qdrantClient uuidv4 [] w
     = Some (Returned tt, w)) /\
  (forall N St (qdrantClient : QdrantClient N St) (w : World N St),
     deleteChunksByIds_qdrant qdrantClient [] w = Some (Returned 0, w)).
Proof. repeat split. Qed.

(** Whichever way the fallback service routes, the public operations
    called with empty arguments return, and leave the map and the backend
    as they were. *)
Corollary empty_arguments_public {N St} (qdrantClient : QdrantClient N St)
  uuidv4 (s : System N St) :
  (exists s',
     addDocumentChunks qdrantClient uuidv4 [] s = Some (tt, s') /\
     inMemoryDocuments s' = inMemoryDocuments s /\ world s' = world s /\
     fallbackService s' = fallbackService s) /\
  (exists s',
     deleteChunksByIds qdrantClient [] s = Some (0, s') /\
     inMemoryDocuments s' = inMemoryDocuments s /\ world s' = world s /\
     fallbackService s' = fallbackService s).
Proof.
  unfold addDocumentChunks, deleteChunksByIds, withFallback, isFallbackActive.
  destruct (degraded (fallbackService s)); cbn;
    split; eexists; repeat split.
Qed.

End Misuse.

(** ** The length of the vectors *)

Module Dimension.

Section NoCheck.

Context {N : Type} {num : JsNumber N}.

Lemma cosineSimilarity_mismatch (a b : list N) :
  List.length a <> List.length b -> cosineSimilarity a b = num_zero.
Proof.
  intros H. unfold cosineSimilarity.
  apply Nat.eqb_neq in H. now rewrite H.
Qed.

(** C5 (amended). Neither store compares the length of an embedding with
    the configured dimension.  A record written to the map is held by it
    whatever the length of its embedding; the write to the backend sends
    the embedding as it is; and a search on the map gives every stored
    record whose embedding differs in length from the query the score 0,
    without raising. *)
Theorem vector_length_is_not_checked :
  (forall (documents : list (DocumentChunk N)) doc mem,
     JsMap.get (id doc) (addDocumentChunks_fallback (documents ++ [doc]) mem)
     = Some doc) /\
  (forall St (qdrantClient : QdrantClient N St) uuidv4 doc (w : World N St),
     exists o st,
       addDocumentChunks_qdrant qdrantClient uuidv4 [doc] w
       = Some (o,
               {| backend := st;
                  requests := requests w ++
                    [Upsert [{| ps_id := uuidv4 (uuids w);
                                ps_vector := embedding doc;
                                ps_payload := payload_of doc |}]];
                  uuids := S (uuids w) |})) /\
  (forall (queryVector : list N) limit mem r,
     In r (searchByVector_fallback queryVector limit mem) ->
     exists doc,
       In doc (JsMap.values mem) /\ r = scored_result queryVector doc /\
       (List.length queryVector <> List.length (embedding doc) ->
        score r = num_zero)).
Proof.
  split; [| split].
  - intros documents doc mem. apply addDocumentChunks_fallback_last.
  - intros St qdrantClient uuidv4 doc w.
    unfold addDocumentChunks_qdrant. cbn.
    unfold bind, fresh_uuid, ret, call. cbn.
    destruct (upsert qdrantClient _ (backend w)) as [o st].
    now exists o, st.
  - intros queryVector limit mem r Hr.
    destruct (searchByVector_fallback_In _ _ _ _ Hr) as (doc & Hin & ->).
    exists doc. split; [exact Hin |]. split; [reflexivity |].
    cbn. apply cosineSimilarity_mismatch.
Qed.

End NoCheck.

Lemma vector_length_is_not_checked_witness :
  let doc := Sample.chunk "youtube_v_0" "talk" None [1%float] in
  let mem := addDocumentChunks_fallback ([] ++ [doc]) JsMap.empty in
  exists d,
    In d (JsMap.values mem) /\
    scored_result [1%float; 0%float] doc = scored_result [1%float; 0%float] d /\
    (List.length [1%float; 0%float] <> List.length (embedding d) ->
     score (scored_result [1%float; 0%float] doc) = 0%float).
Proof.
  intros doc mem.
  destruct (@vector_length_is_not_checked float float_number) as (_ & _ & H).
  apply (H [1%float; 0%float] 10 mem (scored_result [1%float; 0%float] doc)).
  left. reflexivity.
Defined.

(** C5, as stated, fails: a record whose embedding has one component,
    where the configured dimension is 768, is stored by a write to the map,
    and a search with a vector of two components returns it with the score
    0. *)
Lemma mismatch_is_silent :
  let doc := Sample.chunk "youtube_v_0" "talk" None [1%float] in
  let mem := addDocumentChunks_fallback [doc] JsMap.empty in
  List.length (embedding doc) <> VECTOR_SIZE /\
  JsMap.get "youtube_v_0" mem = Some doc /\
  map (fun r => (sr_id r, score r))
    (searchByVector_fallback [1%float; 0%float] 10 mem)
  = [(Some "youtube_v_0", 0%float)].
Proof.
  intros doc mem. split; [discriminate |]. split; reflexivity.
Qed.

End Dimension.

(** ** Ranking by similarity *)

Module Ranking.

Import FloatAxioms.













End Ranking.

(** * Further properties of the code *)

(** ** The map of the Local Store *)

Module MapFacts.

Section Facts.

Context {V : Type}.

Lemma get_None (k : string) (m : JsMap.t V) :
  JsMap.get k m = None <-> ~ In k (JsMap.keys m).
Proof.
  induction m as [| [k' v] m IH]; cbn.
  - intuition.
  - destruct (String.eqb k k') eqn:E.
    + apply String.eqb_eq in E. subst. split; [discriminate | intuition].
    + apply String.eqb_neq in E. rewrite IH. intuition congruence.
Qed.

Lemma has_true (k : string) (m : JsMap.t V) :
  JsMap.has k m = true <-> In k (JsMap.keys m).
Proof.
  unfold JsMap.has. pose proof (get_None k m) as H.
  destruct (JsMap.get k m).
  - split; [| reflexivity]. intros _.
    destruct (in_dec string_dec k (JsMap.keys m)) as [Hi | Hn];
      [exact Hi |].
    apply H in Hn. discriminate.
  - split; [discriminate |]. intros Hi. exfalso. now apply H.
Qed.

Lemma get_set_other (k k' : string) (v : V) (m : JsMap.t V) :
  k <> k' -> JsMap.get k (JsMap.set k' v m) = JsMap.get k m.
Proof.
  intros Hk. induction m as [| [k0 v0] m IH]; cbn.
  - apply String.eqb_neq in Hk. now rewrite Hk.
  - destruct (String.eqb k' k0) eqn:E; cbn.
    + apply String.eqb_eq in E. subst k0.
      apply String.eqb_neq in Hk. now rewrite Hk.
    + now rewrite IH.
Qed.

(** Writing under a key that is there keeps its place; a new key goes
    last. *)
Lemma keys_set (k : string) (v : V) (m : JsMap.t V) :
  JsMap.keys (JsMap.set k v m) =
  if JsMap.has k m then JsMap.keys m else JsMap.keys m ++ [k].
Proof.
  unfold JsMap.has. induction m as [| [k0 v0] m IH]; cbn.
  - reflexivity.
  - destruct (String.eqb k k0) eqn:E; cbn.
    + apply String.eqb_eq in E. now subst.
    + unfold JsMap.keys in IH. rewrite IH.
      now destruct (JsMap.get k m).
Qed.

Lemma set_fresh (k : string) (v : V) (m : JsMap.t V) :
  ~ In k (JsMap.keys m) -> JsMap.set k v m = m ++ [(k, v)].
Proof.
  induction m as [| [k0 v0] m IH]; cbn; intros Hn.
  - reflexivity.
  - destruct (String.eqb k k0) eqn:E.
    + apply String.eqb_eq in E. subst. intuition.
    + rewrite IH by intuition. reflexivity.
Qed.

Lemma NoDup_keys_set (k : string) (v : V) (m : JsMap.t V) :
  NoDup (JsMap.keys m) -> NoDup (JsMap.keys (JsMap.set k v m)).
Proof.
  intros Hm. rewrite keys_set.
  destruct (JsMap.has k m) eqn:E; [exact Hm |].
  apply NoDup_app; [exact Hm | repeat constructor; intros [] |].
  intros x Hx [<- | []].
  apply has_true in Hx. congruence.
Qed.

(** On a map without repeated keys, [delete] drops every entry of the
    key. *)
Lemma delete_filter (k : string) (m : JsMap.t V) :
  NoDup (JsMap.keys m) ->
  JsMap.delete k m = filter (fun e => negb (String.eqb k (fst e))) m.
Proof.
  induction m as [| [k0 v0] m IH]; cbn; intros Hm; [reflexivity |].
  inversion Hm as [| ? ? Hn Hm']; subst.
  destruct (String.eqb k k0) eqn:E; cbn.
  - apply String.eqb_eq in E. subst k0.
    symmetry. apply forallb_filter_id. apply forallb_forall.
    intros [k1 v1] Hin. cbn. apply negb_true_iff. apply String.eqb_neq.
    intros ->. apply Hn. apply (in_map fst) in Hin. exact Hin.
  - now rewrite IH.
Qed.

Lemma NoDup_keys_filter (p : string * V -> bool) (m : JsMap.t V) :
  NoDup (JsMap.keys m) -> NoDup (JsMap.keys (filter p m)).
Proof.
  induction m as [| e m IH]; cbn; intros Hm; [constructor |].
  inversion Hm as [| ? ? Hn Hm']; subst.
  destruct (p e); cbn; [| now apply IH].
  constructor; [| now apply IH].
  intros Hin. apply Hn. unfold JsMap.keys in *.
  apply in_map_iff in Hin. destruct Hin as (x & Hx & Hin).
  apply filter_In in Hin. rewrite <- Hx. apply in_map. tauto.
Qed.

Lemma get_app_fresh (k : string) (m1 m2 : JsMap.t V) :
  ~ In k (JsMap.keys m1) ->
  JsMap.get k (m1 ++ m2) = JsMap.get k m2.
Proof.
  induction m1 as [| [k0 v0] m1 IH]; cbn; intros Hn; [reflexivity |].
  destruct (String.eqb k k0) eqn:E.
  - apply String.eqb_eq in E. subst. intuition.
  - apply IH. intuition.
Qed.

Lemma get_filter_key (k : string) (p : string -> bool) (m : JsMap.t V) :
  JsMap.get k (filter (fun e => p (fst e)) m) =
  if p k then JsMap.get k m else None.
Proof.
  induction m as [| [k0 v0] m IH]; cbn.
  - now destruct (p k).
  - destruct (p k0) eqn:Ep; cbn; destruct (String.eqb k k0) eqn:E.
    + apply String.eqb_eq in E. subst. now rewrite Ep.
    + exact IH.
    + apply String.eqb_eq in E. subst. rewrite Ep.
      rewrite IH, Ep. reflexivity.
    + exact IH.
Qed.

End Facts.

End MapFacts.

(** ** The operations of the Local Store *)

Module StoreOps.

Section Ops.

Context {N : Type}.

Implicit Types (mem : MemStore N) (doc : DocumentChunk N).

Lemma find_app {A} (p : A -> bool) (l1 l2 : list A) :
  find p (l1 ++ l2) =
  match find p l1 with
  | Some x => Some x
  | None => find p l2
  end.
Proof.
  induction l1 as [| x l1 IH]; cbn; [reflexivity |].
  now destruct (p x).
Qed.

Lemma get_filter_value (p : string * DocumentChunk N -> bool) k mem :
  NoDup (JsMap.keys mem) ->
  JsMap.get k (filter p mem) =
  match JsMap.get k mem with
  | Some d => if p (k, d) then Some d else None
  | None => None
  end.
Proof.
  induction mem as [| [k0 d0] mem IH]; cbn; intros Hm; [reflexivity |].
  inversion Hm as [| ? ? Hn Hm']; subst.
  destruct (String.eqb k k0) eqn:E.
  - apply String.eqb_eq in E. subst k0.
    destruct (p (k, d0)); cbn.
    + now rewrite String.eqb_refl.
    + rewrite (IH Hm').
      apply MapFacts.get_None in Hn. now rewrite Hn.
  - destruct (p (k0, d0)); cbn; [rewrite E |]; exact (IH Hm').
Qed.

(** X1. After a write, the record found under an id is the last record
    of the batch with that id, and the record that was there before when the
    batch has none. *)
Theorem lookup_after_write (documents : list (DocumentChunk N)) mem
  (k : string) :
  JsMap.get k (addDocumentChunks_fallback documents mem) =
  match find (fun d => String.eqb (id d) k) (rev documents) with
  | Some d => Some d
  | None => JsMap.get k mem
  end.
Proof.
  unfold addDocumentChunks_fallback.
  revert mem. induction documents as [| d documents IH]; intros mem.
  - reflexivity.
  - cbn [fold_left rev]. rewrite IH, find_app.
    destruct (find _ (rev documents)); [reflexivity |].
    cbn [find]. destruct (String.eqb (id d) k) eqn:E.
    + apply String.eqb_eq in E. subst k. apply get_set_same.
    + apply MapFacts.get_set_other. apply String.eqb_neq in E. congruence.
Qed.

Lemma write_fresh (documents : list (DocumentChunk N)) mem :
  NoDup (JsMap.keys mem ++ map (@id N) documents) ->
  addDocumentChunks_fallback documents mem = mem ++ map entry_of documents.
Proof.
  unfold addDocumentChunks_fallback.
  revert mem. induction documents as [| d documents IH]; intros mem Hn.
  - cbn. now rewrite app_nil_r.
  - cbn [fold_left map].
    assert (Hd : ~ In (id d) (JsMap.keys mem)).
    { intros Hin. apply NoDup_remove_2 in Hn. apply Hn.
      apply in_or_app. now left. }
    rewrite (MapFacts.set_fresh _ _ _ Hd), IH.
    + rewrite <- app_assoc. reflexivity.
    + unfold JsMap.keys in *. rewrite map_app, <- app_assoc. exact Hn.
Qed.

(** X2. Records with pairwise distinct ids, written to the empty map, are
    held by the map in the order of the write: listing its values gives the
    batch back. *)
Theorem write_to_empty (documents : list (DocumentChunk N)) :
  NoDup (map (@id N) documents) ->
  addDocumentChunks_fallback documents JsMap.empty = map entry_of documents /\
  JsMap.values (addDocumentChunks_fallback documents JsMap.empty) = documents.
Proof.
  intros Hn. rewrite (write_fresh documents JsMap.empty Hn). cbn.
  split; [reflexivity |].
  unfold JsMap.values. rewrite map_map. cbn. apply map_id.
Qed.

(** The count is the number of stored records about the video. *)
Lemma count_filter (videoId : string) mem :
  countYoutubeTranscriptChunks_fallback videoId mem =
  List.length (filter (about videoId) (JsMap.values mem)).
Proof.
  unfold countYoutubeTranscriptChunks_fallback, about.
  assert (H : forall l n,
             fold_left
               (fun count_ (doc : DocumentChunk N) =>
                  if startsWith (id doc) (idPattern videoId)
                  then S count_ else count_) l n
             = n + List.length
                     (filter (fun doc => startsWith (id doc)
                                           (idPattern videoId)) l)).
  { induction l as [| d l IH]; intros n; cbn; [lia |].
    rewrite IH. destruct (startsWith _ _); cbn; lia. }
  apply (H _ 0).
Qed.

(** Existence is a count that is not zero. *)
Lemma exists_count (videoId : string) mem :
  doesTranscriptExist_fallback videoId mem =
  Nat.ltb 0 (countYoutubeTranscriptChunks_fallback videoId mem).
Proof.
  rewrite count_filter. unfold doesTranscriptExist_fallback, about.
  induction (JsMap.values mem) as [| d l IH]; cbn; [reflexivity |].
  destruct (startsWith _ _); cbn; [reflexivity | exact IH].
Qed.

(** X3. A transcript exists on the map exactly when its count is not
    zero. *)
Theorem exists_iff_counted (videoId : string) mem :
  doesTranscriptExist_fallback videoId mem =
  Nat.ltb 0 (countYoutubeTranscriptChunks_fallback videoId mem).
Proof. apply exists_count. Qed.

Lemma delete_prefix_loop (videoId : string) :
  forall (rest kept : MemStore N) n,
    NoDup (JsMap.keys (kept ++ rest)) ->
    fold_left
      (fun '(deletedCount, m) key =>
         match JsMap.get key m with
         | Some doc =>
             if startsWith (id doc) (idPattern videoId)
             then (S deletedCount, JsMap.delete key m)
             else (deletedCount, m)
         | None => (deletedCount, m)
         end)
      (JsMap.keys rest) (n, kept ++ rest)
    = (n + List.length (filter (fun e => about videoId (snd e)) rest),
       kept ++ filter (fun e => negb (about videoId (snd e))) rest).
Proof.
  induction rest as [| [k d] rest IH]; intros kept n Hn.
  - cbn. f_equal. lia.
  - cbn [JsMap.keys map fst fold_left].
    assert (Hk : ~ In k (JsMap.keys kept)).
    { intros Hin. unfold JsMap.keys in *. rewrite map_app in Hn.
      cbn in Hn. apply NoDup_remove_2 in Hn. apply Hn.
      apply in_or_app. now left. }
    rewrite (MapFacts.get_app_fresh _ _ _ Hk). cbn [JsMap.get].
    rewrite String.eqb_refl. cbn [filter snd].
    change (startsWith (id d) (idPattern videoId)) with (about videoId d).
    destruct (about videoId d) eqn:E; cbn [negb].
    + rewrite MapFacts.delete_filter by exact Hn.
      assert (Hdel : filter (fun e => negb (String.eqb k (fst e)))
                       (kept ++ (k, d) :: rest) = kept ++ rest).
      { rewrite <- MapFacts.delete_filter by exact Hn.
        clear - Hk. induction kept as [| [k0 d0] kept IHk]; cbn.
        - now rewrite String.eqb_refl.
        - destruct (String.eqb k k0) eqn:E0.
          + apply String.eqb_eq in E0. subst. cbn in Hk. intuition.
          + f_equal. apply IHk. cbn in Hk. intuition. }
      rewrite Hdel.
      fold (JsMap.keys rest).
      rewrite IH.
      * cbn [List.length]. f_equal. lia.
      * unfold JsMap.keys in *. rewrite map_app in *. cbn in Hn.
        now apply NoDup_remove_1 in Hn.
    + fold (JsMap.keys rest).
      change (kept ++ (k, d) :: rest) with (kept ++ [(k, d)] ++ rest).
      rewrite app_assoc, IH.
      * rewrite <- app_assoc. reflexivity.
      * rewrite <- app_assoc. exact Hn.
Qed.

Lemma filter_values (p : DocumentChunk N -> bool) mem :
  filter p (JsMap.values mem) = JsMap.values (filter (fun e => p (snd e)) mem).
Proof.
  unfold JsMap.values.
  induction mem as [| [k d] mem IH]; cbn; [reflexivity |].
  destruct (p d); cbn; now rewrite IH.
Qed.

(** What the delete by prefix computes. *)
Lemma delete_prefix_filter (videoId : string) mem :
  NoDup (JsMap.keys mem) ->
  deleteYoutubeTranscriptChunks_fallback videoId mem =
  (countYoutubeTranscriptChunks_fallback videoId mem,
   filter (fun e => negb (about videoId (snd e))) mem).
Proof.
  intros Hn. unfold deleteYoutubeTranscriptChunks_fallback.
  pose proof (delete_prefix_loop videoId mem [] 0 Hn) as H.
  cbn [app Nat.add] in H. etransitivity; [exact H |].
  rewrite count_filter, filter_values. unfold JsMap.values.
  now rewrite length_map.
Qed.

(** X4. On a map without repeated keys, deleting the chunks of a video
    returns the number that counting them returns, and leaves the other
    records, in their order. *)
Theorem delete_by_prefix_result (videoId : string) mem :
  NoDup (JsMap.keys mem) ->
  deleteYoutubeTranscriptChunks_fallback videoId mem =
  (countYoutubeTranscriptChunks_fallback videoId mem,
   filter (fun e => negb (about videoId (snd e))) mem).
Proof. apply delete_prefix_filter. Qed.

(** X5. After the chunks of a video are deleted from a map without
    repeated keys, the video has no transcript and its count is 0; the
    records about other videos are found as before, and nothing else is. *)
Theorem after_delete_by_prefix (videoId : string) mem :
  NoDup (JsMap.keys mem) ->
  let mem' := snd (deleteYoutubeTranscriptChunks_fallback videoId mem) in
  doesTranscriptExist_fallback videoId mem' = false /\
  countYoutubeTranscriptChunks_fallback videoId mem' = 0 /\
  forall k,
    JsMap.get k mem' =
    match JsMap.get k mem with
    | Some d => if about videoId d then None else Some d
    | None => None
    end.
Proof.
  intros Hn. rewrite (delete_prefix_filter videoId mem Hn). cbn [snd].
  assert (Hc : countYoutubeTranscriptChunks_fallback videoId
                 (filter (fun e => negb (about videoId (snd e))) mem) = 0).
  { rewrite count_filter, filter_values.
    unfold JsMap.values. rewrite length_map.
    induction mem as [| [k d] mem IH]; cbn; [reflexivity |].
    inversion Hn; subst.
    destruct (about videoId d) eqn:E; cbn; [now apply IH |].
    rewrite E. cbn. now apply IH. }
  split; [| split].
  - rewrite exists_count, Hc. reflexivity.
  - exact Hc.
  - intros k. rewrite (get_filter_value _ k mem Hn). cbn [snd].
    destruct (JsMap.get k mem) as [d |]; [| reflexivity].
    now destruct (about videoId d).
Qed.

Lemma length_delete {V} (k : string) (m : JsMap.t V) :
  JsMap.has k m = true ->
  S (List.length (JsMap.delete k m)) = List.length m.
Proof.
  unfold JsMap.has. induction m as [| [k0 v0] m IH]; cbn; [discriminate |].
  destruct (String.eqb k k0); cbn; [reflexivity |].
  intros H. now rewrite IH.
Qed.

Lemma delete_ids_loop (chunkIds : list string) :
  forall mem n,
    NoDup (JsMap.keys mem) ->
    let r := fold_left
               (fun '(deletedCount, m) key =>
                  if JsMap.has key m
                  then (S deletedCount, JsMap.delete key m)
                  else (deletedCount, m))
               chunkIds (n, mem) in
    snd r = filter (fun e => negb (existsb (String.eqb (fst e)) chunkIds)) mem
    /\ fst r + List.length (snd r) = n + List.length mem.
Proof.
  induction chunkIds as [| c chunkIds IH]; intros mem n Hn.
  - cbn. split; [| reflexivity].
    symmetry. apply forallb_filter_id. now apply forallb_forall.
  - cbn [fold_left].
    assert (Hf : filter (fun e => negb (existsb (String.eqb (fst e))
                                          (c :: chunkIds))) mem
                 = filter (fun e => negb (existsb (String.eqb (fst e))
                                            chunkIds))
                     (filter (fun e => negb (String.eqb c (fst e))) mem)).
    { clear. induction mem as [| [k d] mem IHm]; [reflexivity |].
      cbn [filter fst].
      change (existsb (String.eqb k) (c :: chunkIds))
        with (String.eqb k c || existsb (String.eqb k) chunkIds).
      rewrite (String.eqb_sym k c).
      destruct (String.eqb c k); cbn [orb negb filter fst]; [exact IHm |].
      destruct (existsb (String.eqb k) chunkIds); cbn [negb];
        now rewrite IHm. }
    destruct (JsMap.has c mem) eqn:E.
    + destruct (IH (JsMap.delete c mem) (S n)) as [H1 H2].
      { rewrite MapFacts.delete_filter by exact Hn.
        now apply MapFacts.NoDup_keys_filter. }
      cbv beta iota zeta in *. split.
      * etransitivity; [exact H1 |]. rewrite Hf.
        now rewrite <- MapFacts.delete_filter by exact Hn.
      * etransitivity; [exact H2 |].
        pose proof (length_delete c mem E). lia.
    + destruct (IH mem n Hn) as [H1 H2].
      assert (Hd : JsMap.delete c mem = mem).
      { clear - E. unfold JsMap.has in E.
        induction mem as [| [k d] mem IHm]; cbn in *; [reflexivity |].
        destruct (String.eqb c k); [discriminate |].
        f_equal. now apply IHm. }
      cbv beta iota zeta in *. split.
      * etransitivity; [exact H1 |]. rewrite Hf.
        rewrite <- MapFacts.delete_filter by exact Hn. now rewrite Hd.
      * exact H2.
Qed.

(** X6. On a map without repeated keys, deleting by ids removes exactly
    the records whose key is among the ids and returns how many records it
    removed, whether or not an id is named twice or is absent; afterwards
    none of the ids is found and every other key is found as before. *)
Theorem delete_by_ids_result (chunkIds : list string) mem :
  NoDup (JsMap.keys mem) ->
  let r := deleteChunksByIds_fallback chunkIds mem in
  snd r = filter (fun e => negb (existsb (String.eqb (fst e)) chunkIds)) mem /\
  fst r + List.length (snd r) = List.length mem /\
  (forall k, In k chunkIds -> JsMap.get k (snd r) = None) /\
  (forall k, ~ In k chunkIds -> JsMap.get k (snd r) = JsMap.get k mem).
Proof.
  intros Hn r.
  assert (H : snd r
              = filter (fun e => negb (existsb (String.eqb (fst e)) chunkIds))
                  mem /\
              fst r + List.length (snd r) = 0 + List.length mem)
    by exact (delete_ids_loop chunkIds mem 0 Hn).
  destruct H as [H1 H2].
  split; [exact H1 |]. split; [exact H2 |].
  rewrite H1.
  split; intros k Hk;
    rewrite (MapFacts.get_filter_key k
               (fun key => negb (existsb (String.eqb key) chunkIds)) mem).
  - assert (E : existsb (String.eqb k) chunkIds = true).
    { apply existsb_exists. exists k. split; [exact Hk |].
      apply String.eqb_refl. }
    now rewrite E.
  - assert (E : existsb (String.eqb k) chunkIds = false).
    { apply not_true_is_false. intros H. apply existsb_exists in H.
      destruct H as (x & Hx & Ex). apply String.eqb_eq in Ex. now subst. }
    now rewrite E.
Qed.

Lemma Forall_set {V} (P : string * V -> Prop) (k : string) (v : V)
  (m : JsMap.t V) :
  P (k, v) -> Forall P m -> Forall P (JsMap.set k v m).
Proof.
  intros Hkv. induction 1 as [| [k0 v0] m H0 Hm IH]; cbn.
  - now constructor.
  - destruct (String.eqb k k0); constructor; assumption.
Qed.

Lemma Forall_filter {A} (P : A -> Prop) (p : A -> bool) (l : list A) :
  Forall P l -> Forall P (filter p l).
Proof.
  induction 1 as [| x l Hx Hl IH]; cbn; [constructor |].
  destruct (p x); [constructor |]; assumption.
Qed.

(** X7. The three operations that change the map keep it well keyed: no
    key twice, every record under its own id. *)
Theorem well_keyed_kept mem :
  well_keyed mem ->
  (forall documents, well_keyed (addDocumentChunks_fallback documents mem)) /\
  (forall videoId,
     well_keyed (snd (deleteYoutubeTranscriptChunks_fallback videoId mem))) /\
  (forall chunkIds,
     well_keyed (snd (deleteChunksByIds_fallback chunkIds mem))).
Proof.
  intros [Hn Hk]. split; [| split].
  - intros documents. unfold addDocumentChunks_fallback.
    revert mem Hn Hk.
    induction documents as [| d documents IH]; intros mem Hn Hk.
    + now split.
    + cbn [fold_left]. apply IH.
      * now apply MapFacts.NoDup_keys_set.
      * now apply Forall_set.
  - intros videoId. rewrite (delete_prefix_filter videoId mem Hn). cbn [snd].
    split; [now apply MapFacts.NoDup_keys_filter | now apply Forall_filter].
  - intros chunkIds.
    assert (H : snd (deleteChunksByIds_fallback chunkIds mem)
                = filter (fun e => negb (existsb (String.eqb (fst e))
                                           chunkIds)) mem)
      by exact (proj1 (delete_ids_loop chunkIds mem 0 Hn)).
    rewrite H.
    split; [now apply MapFacts.NoDup_keys_filter | now apply Forall_filter].
Qed.

Lemma filter_idem {A} (p : A -> bool) (l : list A) :
  filter p (filter p l) = filter p l.
Proof.
  apply forallb_filter_id. apply forallb_forall.
  intros x Hx. now apply filter_In in Hx.
Qed.

Lemma count_after_delete (videoId : string) mem :
  countYoutubeTranscriptChunks_fallback videoId
    (filter (fun e => negb (about videoId (snd e))) mem) = 0.
Proof.
  rewrite count_filter, filter_values.
  unfold JsMap.values. rewrite length_map.
  induction mem as [| [k d] mem IH]; cbn; [reflexivity |].
  destruct (about videoId d) eqn:E; cbn; [exact IH |].
  rewrite E. cbn. exact IH.
Qed.

(** X22. Deleting a second time deletes nothing: on a map without
    repeated keys, the delete by prefix and the delete by ids, repeated with
    the same argument right after, return 0 and leave the map as the first
    call left it. *)
Theorem delete_again_deletes_nothing (videoId : string)
  (chunkIds : list string) mem :
  NoDup (JsMap.keys mem) ->
  (let m1 := snd (deleteYoutubeTranscriptChunks_fallback videoId mem) in
   deleteYoutubeTranscriptChunks_fallback videoId m1 = (0, m1)) /\
  (let m1 := snd (deleteChunksByIds_fallback chunkIds mem) in
   deleteChunksByIds_fallback chunkIds m1 = (0, m1)).
Proof.
  intros Hn. split.
  - rewrite (delete_prefix_filter videoId mem Hn). cbn [snd].
    rewrite delete_prefix_filter
      by now apply MapFacts.NoDup_keys_filter.
    now rewrite count_after_delete, filter_idem.
  - assert (H1 : snd (deleteChunksByIds_fallback chunkIds mem)
                 = filter (fun e => negb (existsb (String.eqb (fst e))
                                            chunkIds)) mem)
      by exact (proj1 (delete_ids_loop chunkIds mem 0 Hn)).
    cbv zeta. rewrite H1.
    set (m1 := filter _ mem).
    assert (Hn1 : NoDup (JsMap.keys m1))
      by now apply MapFacts.NoDup_keys_filter.
    assert (H2 : snd (deleteChunksByIds_fallback chunkIds m1)
                 = filter (fun e => negb (existsb (String.eqb (fst e))
                                            chunkIds)) m1 /\
                 fst (deleteChunksByIds_fallback chunkIds m1) +
                 List.length (snd (deleteChunksByIds_fallback chunkIds m1))
                 = 0 + List.length m1)
      by exact (delete_ids_loop chunkIds m1 0 Hn1).
    destruct H2 as [Hs Hf]. unfold m1 in Hs at 2.
    rewrite filter_idem in Hs. fold m1 in Hs.
    rewrite Hs in Hf.
    destruct (deleteChunksByIds_fallback chunkIds m1) as [n m2].
    cbn [fst snd] in *. subst m2. f_equal. lia.
Qed.

(** X23. After records with pairwise distinct ids are written to the
    empty map, the count for a video is the number of records of the batch
    whose id starts with its pattern, and the video has a transcript exactly
    when the batch holds such a record. *)
Theorem count_after_write (videoId : string)
  (documents : list (DocumentChunk N)) :
  NoDup (map (@id N) documents) ->
  let mem := addDocumentChunks_fallback documents JsMap.empty in
  countYoutubeTranscriptChunks_fallback videoId mem
  = List.length (filter (about videoId) documents) /\
  doesTranscriptExist_fallback videoId mem
  = existsb (about videoId) documents.
Proof.
  intros Hn mem.
  assert (Hv : JsMap.values mem = documents).
  { unfold mem. rewrite (write_fresh documents JsMap.empty Hn). cbn.
    unfold JsMap.values. rewrite map_map. cbn. apply map_id. }
  split.
  - now rewrite count_filter, Hv.
  - unfold doesTranscriptExist_fallback. now rewrite Hv.
Qed.

End Ops.

Lemma delete_again_deletes_nothing_witness :
  let mem := map entry_of Sample.untagged in
  (let m1 := snd (deleteYoutubeTranscriptChunks_fallback "talk" mem) in
   deleteYoutubeTranscriptChunks_fallback "talk" m1 = (0, m1)) /\
  (let m1 := snd (deleteChunksByIds_fallback ["youtube_talk_3"] mem) in
   deleteChunksByIds_fallback ["youtube_talk_3"] m1 = (0, m1)).
Proof.
  intros mem.
  apply (@delete_again_deletes_nothing float "talk" ["youtube_talk_3"] mem).
  repeat constructor; cbn; intuition discriminate.
Defined.

Lemma count_after_write_witness :
  let mem := addDocumentChunks_fallback Sample.untagged JsMap.empty in
  countYoutubeTranscriptChunks_fallback "talk" mem
  = List.length (filter (about "talk") Sample.untagged) /\
  doesTranscriptExist_fallback "talk" mem
  = existsb (about "talk") Sample.untagged.
Proof.
  apply (@count_after_write float "talk" Sample.untagged).
  repeat constructor; cbn; intuition discriminate.
Defined.

Lemma write_to_empty_witness :
  addDocumentChunks_fallback Sample.untagged JsMap.empty
  = map entry_of Sample.untagged /\
  JsMap.values (addDocumentChunks_fallback Sample.untagged JsMap.empty)
  = Sample.untagged.
Proof.
  apply (@write_to_empty float Sample.untagged).
  repeat constructor; cbn; intuition discriminate.
Defined.

Lemma delete_by_prefix_result_witness :
  deleteYoutubeTranscriptChunks_fallback "talk"
    (map entry_of Sample.untagged)
  = (countYoutubeTranscriptChunks_fallback "talk"
       (map entry_of Sample.untagged),
     filter (fun e => negb (about "talk" (snd e)))
       (map entry_of Sample.untagged)).
Proof.
  apply (@delete_by_prefix_result float "talk" (map entry_of Sample.untagged)).
  repeat constructor; cbn; intuition discriminate.
Defined.

Lemma after_delete_by_prefix_witness :
  let mem := map entry_of Sample.untagged in
  let mem' := snd (deleteYoutubeTranscriptChunks_fallback "talk" mem) in
  doesTranscriptExist_fallback "talk" mem' = false /\
  countYoutubeTranscriptChunks_fallback "talk" mem' = 0 /\
  forall k,
    JsMap.get k mem' =
    match JsMap.get k mem with
    | Some d => if about "talk" d then None else Some d
    | None => None
    end.
Proof.
  intros mem.
  apply (@after_delete_by_prefix float "talk" mem).
  repeat constructor; cbn; intuition discriminate.
Defined.

Lemma delete_by_ids_result_witness :
  let ids := ["youtube_talk_1"; "nowhere"; "youtube_talk_1"] in
  let mem := map entry_of Sample.untagged in
  let r := deleteChunksByIds_fallback ids mem in
  snd r = filter (fun e => negb (existsb (String.eqb (fst e)) ids)) mem /\
  fst r + List.length (snd r) = List.length mem /\
  (forall k, In k ids -> JsMap.get k (snd r) = None) /\
  (forall k, ~ In k ids -> JsMap.get k (snd r) = JsMap.get k mem).
Proof.
  intros ids mem.
  apply (@delete_by_ids_result float ids mem).
  repeat constructor; cbn; intuition discriminate.
Defined.

Lemma well_keyed_kept_witness :
  let mem := map entry_of Sample.untagged in
  (forall documents, well_keyed (addDocumentChunks_fallback documents mem)) /\
  (forall videoId,
     well_keyed (snd (deleteYoutubeTranscriptChunks_fallback videoId mem))) /\
  (forall chunkIds,
     well_keyed (snd (deleteChunksByIds_fallback chunkIds mem))).
Proof.
  intros mem.
  apply (@well_keyed_kept float mem).
  split; repeat constructor; cbn; intuition discriminate.
Defined.

End StoreOps.

(** ** Search and listing on the Local Store *)

Module SearchFacts.

Section AnyNumber.

Context {N : Type} {num : JsNumber N}.

Lemma sort_insert_length {A} (cmp : A -> A -> N) (x : A) (l : list A) :
  List.length (sort_insert cmp x l) = S (List.length l).
Proof.
  induction l as [| y l IH]; cbn; [reflexivity |].
  destruct (num_gtb (cmp x y) num_zero); cbn; [now rewrite IH | reflexivity].
Qed.

Lemma sort_length {A} (cmp : A -> A -> N) (l : list A) :
  List.length (sort cmp l) = List.length l.
Proof.
  unfold sort. induction l as [| y l IH]; cbn; [reflexivity |].
  now rewrite sort_insert_length, IH.
Qed.

Lemma sort_insert_perm {A} (cmp : A -> A -> N) (x : A) (l : list A) :
  Permutation (sort_insert cmp x l) (x :: l).
Proof.
  induction l as [| y l IH]; cbn; [reflexivity |].
  destruct (num_gtb (cmp x y) num_zero); [| reflexivity].
  rewrite IH. apply perm_swap.
Qed.

Lemma sort_perm {A} (cmp : A -> A -> N) (l : list A) :
  Permutation (sort cmp l) l.
Proof.
  unfold sort. induction l as [| y l IH]; cbn; [reflexivity |].
  rewrite sort_insert_perm. now constructor.
Qed.

(** X8. A search on the map returns as many results as the limit allows
    and the map holds: the smaller of the two numbers. *)
Theorem search_length (queryVector : list N) (limit : nat)
  (mem : MemStore N) :
  List.length (searchByVector_fallback queryVector limit mem)
  = Nat.min limit (List.length mem).
Proof.
  unfold searchByVector_fallback, slice.
  rewrite Nat.sub_0_r, skipn_0, length_firstn, sort_length, length_map.
  unfold JsMap.values. now rewrite length_map.
Qed.

(** X11. For every arithmetic, the doubles of the code included: the
    results of a search on the map, together with the records the limit
    leaves out, are the scored records of the map in some order.  Every
    result is the score of a stored record against the query, and no record
    is returned more often than the map holds it. *)
Theorem search_returns_stored_records (queryVector : list N) (limit : nat)
  (mem : MemStore N) :
  exists rest,
    Permutation (searchByVector_fallback queryVector limit mem ++ rest)
      (map (scored_result queryVector) (JsMap.values mem)) /\
    List.length rest = List.length mem - limit.
Proof.
  unfold searchByVector_fallback, slice.
  rewrite Nat.sub_0_r, skipn_0.
  exists (skipn limit
            (sort by_score_desc
               (map (scored_result queryVector) (JsMap.values mem)))).
  split.
  - rewrite firstn_skipn. apply sort_perm.
  - rewrite length_skipn, sort_length, length_map.
    unfold JsMap.values. now rewrite length_map.
Qed.

Lemma unique_names_loop (l : list (DocumentChunk N)) :
  forall acc,
    NoDup acc ->
    let names :=
      fold_left
        (fun documentNames doc =>
           if truthy (documentName doc)
           then set_add (documentName doc) documentNames
           else documentNames) l acc in
    NoDup names /\
    forall name,
      In name names <->
      In name acc \/
      (name <> "" /\ exists doc, In doc l /\ documentName doc = name).
Proof.
  induction l as [| d l IH]; intros acc Hacc; cbn [fold_left].
  - cbv zeta. split; [exact Hacc |].
    intros name. split; [now left |].
    intros [H | (_ & doc & [] & _)]. exact H.
  - assert (Hadd : forall s, NoDup (set_add s acc) /\
                     forall x, In x (set_add s acc) <-> In x acc \/ x = s).
    { intros s. unfold set_add.
      destruct (existsb (String.eqb s) acc) eqn:E.
      - split; [exact Hacc |]. intros x. split; [now left |].
        intros [H | ->]; [exact H |].
        apply existsb_exists in E. destruct E as (y & Hy & Ey).
        apply String.eqb_eq in Ey. now subst.
      - split.
        + apply NoDup_app; [exact Hacc | repeat constructor; intros [] |].
          intros x Hx [<- | []].
          assert (existsb (String.eqb s) acc = true); [| congruence].
          apply existsb_exists. exists s. split; [exact Hx |].
          apply String.eqb_refl.
        + intros x. rewrite in_app_iff. cbn. intuition. }
    destruct (truthy (documentName d)) eqn:Et; unfold truthy in Et.
    + apply negb_true_iff, String.eqb_neq in Et.
      destruct (Hadd (documentName d)) as [Hn1 Hin1].
      destruct (IH _ Hn1) as [Hn Hin]. cbv zeta in *.
      split; [exact Hn |]. intros name. rewrite Hin, Hin1.
      split.
      * intros [[H | ->] | (Hne & doc & Hd & Hname)].
        -- now left.
        -- right. split; [exact Et |]. exists d. split; [now left | reflexivity].
        -- right. split; [exact Hne |]. exists doc. split; [now right | exact Hname].
      * intros [H | (Hne & doc & [<- | Hd] & Hname)].
        -- left. now left.
        -- left. right. now symmetry.
        -- right. split; [exact Hne |]. now exists doc.
    + apply negb_false_iff, String.eqb_eq in Et.
      destruct (IH acc Hacc) as [Hn Hin]. cbv zeta in *.
      split; [exact Hn |]. intros name. rewrite Hin.
      split; intros [H | (Hne & doc & Hd & Hname)]; try (now left); right;
        (split; [exact Hne |]).
      * exists doc. split; [now right | exact Hname].
      * destruct Hd as [<- | Hd]; [congruence |]. now exists doc.
Qed.

(** X9. The listing of the document names of the map has no name twice,
    and holds exactly the non-empty names that some stored record bears. *)
Theorem unique_names_fallback (mem : MemStore N) :
  NoDup (getUniqueDocumentNames_fallback mem) /\
  forall name,
    In name (getUniqueDocumentNames_fallback mem) <->
    name <> "" /\
    exists doc, In doc (JsMap.values mem) /\ documentName doc = name.
Proof.
  destruct (@unique_names_loop (JsMap.values mem) [] (NoDup_nil _))
    as [Hn Hin].
  split; [exact Hn |].
  intros name. etransitivity; [apply Hin |].
  split; [intros [[] | H]; exact H | now right].
Qed.

End AnyNumber.

(** *** Symmetry on JavaScript numbers *)

Lemma SFmul_comm (prec emax : Z) (x y : SpecFloat.spec_float) :
  SpecFloat.SFmul prec emax x y = SpecFloat.SFmul prec emax y x.
Proof.
  destruct x as [sx | sx | | sx mx ex], y as [sy | sy | | sy my ey]; cbn;
    rewrite ?(xorb_comm sy sx); try reflexivity.
  now rewrite (Pos.mul_comm my mx), (Z.add_comm ey ex).
Qed.

(** The product of two numbers does not depend on their order. *)
Lemma float_mul_comm (x y : float) : PrimFloat.mul x y = PrimFloat.mul y x.
Proof.
  apply FloatAxioms.Prim2SF_inj.
  rewrite !FloatAxioms.mul_spec. apply SFmul_comm.
Qed.

Lemma cosineLoop_swap (a : list float) :
  forall b d am bm,
    List.length a = List.length b ->
    cosineLoop b a d bm am =
    (fst (fst (cosineLoop a b d am bm)),
     snd (cosineLoop a b d am bm),
     snd (fst (cosineLoop a b d am bm))).
Proof.
  induction a as [| x a IH]; intros [| y b] d am bm Hlen;
    try discriminate; [reflexivity |].
  cbn [cosineLoop num_add num_mul float_number].
  rewrite (float_mul_comm y x). apply IH. now injection Hlen.
Qed.

(** X10. On JavaScript numbers the similarity of two vectors does not
    depend on their order: the two calls return the same number, bit for
    bit. *)
Theorem cosineSimilarity_symmetric (a b : list float) :
  cosineSimilarity a b = cosineSimilarity b a.
Proof.
  unfold cosineSimilarity.
  rewrite (Nat.eqb_sym (List.length b) (List.length a)).
  destruct (Nat.eqb (List.length a) (List.length b)) eqn:E; [| reflexivity].
  apply Nat.eqb_eq in E. cbn [negb].
  cbn [num_zero num_sqrt num_eqb num_div num_mul float_number].
  rewrite (cosineLoop_swap a b 0%float 0%float 0%float E).
  destruct (cosineLoop a b 0%float 0%float 0%float) as [[d am] bm].
  cbn [fst snd]. rewrite orb_comm.
  now rewrite (float_mul_comm (PrimFloat.sqrt bm) (PrimFloat.sqrt am)).
Qed.

End SearchFacts.


(** ** The primary path *)

Module PrimaryFacts.

Section Facts.

Context {N : Type} {num : JsNumber N} {St : Type}.
Variable qdrantClient : QdrantClient N St.

Lemma draw_points (uuidv4 : nat -> string)
  (documents : list (DocumentChunk N)) :
  forall (acc : list (PointStruct N)) (w : World N St),
    forEachM
      (fun acc doc =>
         bind (fresh_uuid uuidv4)
           (fun u =>
              ret (acc ++ [{| ps_id := u;
                              ps_vector := embedding doc;
                              ps_payload := payload_of doc |}])))
      documents acc w
    = Some (Returned (acc ++ points_from uuidv4 (uuids w) documents),
            {| backend := backend w;
               requests := requests w;
               uuids := uuids w + List.length documents |}).
Proof.
  induction documents as [| d documents IH]; intros acc w.
  - cbn. rewrite app_nil_r, Nat.add_0_r. now destruct w.
  - cbn [forEachM]. unfold bind at 1. unfold bind at 1.
    unfold fresh_uuid at 1. unfold ret at 1.
    rewrite IH. cbn [uuids backend requests points_from List.length].
    rewrite <- app_assoc. cbn [app].
    now rewrite Nat.add_succ_r.
Qed.

(** X13. A write of a batch that is not empty sends one request to the
    backend: an upsert of one point per record, in the order of the batch,
    each under the next identifier drawn and with the embedding and the
    fields of its record; the write returns or raises as the upsert does. *)
Theorem write_sends_one_upsert (uuidv4 : nat -> string)
  (documents : list (DocumentChunk N)) (w : World N St) :
  documents <> [] ->
  let pts := points_from uuidv4 (uuids w) documents in
  addDocumentChunks_qdrant qdrantClient uuidv4 documents w
  = Some (fst (upsert qdrantClient pts (backend w)),
          {| backend := snd (upsert qdrantClient pts (backend w));
             requests := requests w ++ [Upsert pts];
             uuids := uuids w + List.length documents |}) /\
  List.length pts = List.length documents /\
  map (@ps_vector N) pts = map (@embedding N) documents /\
  map (@ps_payload N) pts = map payload_of documents.
Proof.
  intros Hne pts. split; [| split; [| split]].
  - unfold addDocumentChunks_qdrant.
    destruct documents as [| d documents]; [congruence |].
    cbn [List.length Nat.eqb]. unfold bind at 1.
    rewrite (draw_points uuidv4 (d :: documents) [] w). cbn [app].
    unfold call. cbn [backend requests uuids]. fold pts.
    now destruct (upsert qdrantClient pts (backend w)).
  - subst pts. clear Hne. generalize (uuids w).
    induction documents as [| d documents IH]; intros n; cbn;
      [reflexivity | now rewrite IH].
  - subst pts. clear Hne. generalize (uuids w).
    induction documents as [| d documents IH]; intros n; cbn;
      [reflexivity | now rewrite IH].
  - subst pts. clear Hne. generalize (uuids w).
    induction documents as [| d documents IH]; intros n; cbn;
      [reflexivity | now rewrite IH].
Qed.

(** X14. Written to the backend as a point and read back, a record gives
    on the primary path the result that the map gives for it, with the
    domains put to ["default"] when the record has none and every other
    field the same: by name the result of the fallback of
    [getChunksByDocumentName], by search the result of the fallback of
    [searchByVector] with the score of the backend in place of the computed
    one.  So the two paths agree on a record that has domains, and differ in
    the domains alone on a record that has none. *)
Theorem read_back_agrees (doc : DocumentChunk N) (key : string) (s : N) :
  let point := {| pt_id := key; pt_payload := payload_of doc |} in
  let hit := {| hit_score := s; hit_payload := payload_of doc |} in
  point_result point
  = with_domains (domains_or_default (domains doc)) (chunk_result doc) /\
  (forall queryVector,
     hit_result hit
     = with_domains (domains_or_default (domains doc))
         (with_score s (scored_result queryVector doc))) /\
  (domains doc <> None ->
   point_result point = chunk_result doc /\
   forall queryVector,
     hit_result hit = with_score s (scored_result queryVector doc)) /\
  (domains doc = None ->
   point_result point <> chunk_result doc /\
   sr_domains (point_result (N := N) point) = Some ["default"] /\
   sr_domains (chunk_result doc) = None).
Proof.
  intros point hit.
  unfold point_result, hit_result, chunk_result, scored_result, with_domains,
    with_score.
  cbn. split; [reflexivity |]. split; [reflexivity |].
  destruct (domains doc) as [ds |]; split; intros H; try congruence.
  - split; reflexivity.
  - split; [intros E; discriminate E | split; reflexivity].
Qed.

(** *** Paging *)

(** A paging loop whose body asks for one page and folds it into its state
    follows the walk of the backend: with fuel for every page it returns the
    fold of the pages, or raises what the failing request raised. *)
Lemma doWhile_walk {S} (mk : option string -> ScrollRequest)
  (step : S -> ScrollResponse -> S)
  (body : S -> option string -> M N St (S * option string)) :
  (forall s offset w,
     body s offset w =
     bind (call (Scroll (mk offset)) (scroll qdrantClient (mk offset)))
       (fun response => ret (step s response, next_page_offset response))
       w) ->
  forall offset st pages failure st',
    walk qdrantClient mk offset st pages failure st' ->
    forall fuel s (w : World N St),
      backend w = st ->
      List.length pages < fuel ->
      exists w',
        doWhile fuel body s offset w =
        Some (match failure with
              | None => Returned (fold_left step pages s)
              | Some e => Thrown e
              end, w') /\
        backend w' = st' /\
        uuids w' = uuids w /\
        List.length (requests w') =
        List.length (requests w) + List.length pages +
        match failure with Some _ => 1 | None => 0 end.
Proof.
  intros Hbody offset st pages failure st' Hwalk.
  induction Hwalk as [offset st page st' Hs Ht
                     | offset st e st' Hs
                     | offset st page st' pages failure st'' Hs Ht _ IH];
    intros [| fuel] s w Hw Hfuel; cbn [List.length] in Hfuel; try lia.
  - cbn [doWhile]. unfold bind at 1. rewrite Hbody.
    unfold bind, call, ret. rewrite Hw, Hs. cbn [fst snd]. rewrite Ht.
    eexists. split; [reflexivity |]. cbn.
    rewrite length_app. cbn. repeat split; lia.
  - cbn [doWhile]. unfold bind at 1. rewrite Hbody.
    unfold bind, call, ret. rewrite Hw, Hs.
    eexists. split; [reflexivity |]. cbn.
    rewrite length_app. cbn. repeat split; lia.
  - cbn [doWhile]. unfold bind at 1. rewrite Hbody.
    unfold bind at 1. unfold call at 1. rewrite Hw, Hs.
    unfold ret at 1. cbn [fst snd]. rewrite Ht.
    destruct (IH fuel (step s page)
                {| backend := st';
                   requests := requests w ++ [Scroll (mk offset)];
                   uuids := uuids w |} eq_refl)
      as (w' & Hrun & Hb & Hu & Hr); [lia |].
    exists w'. split; [exact Hrun |]. split; [exact Hb |].
    split; [exact Hu |].
    rewrite Hr. cbn. rewrite length_app. cbn. lia.
Qed.

Lemma fold_pages_count (p : PointRecord -> bool)
  (pages : list ScrollResponse) :
  forall n,
    fold_left
      (fun count_ response =>
         count_ + List.length (filter p (points response)))
      pages n
    = n + List.length (filter p (all_points pages)).
Proof.
  unfold all_points.
  induction pages as [| page pages IH]; intros n; cbn; [lia |].
  rewrite IH, filter_app, length_app. lia.
Qed.

(** X15. When the backend refuses the filtered count, the count of the
    chunks of a video is taken page by page: if the backend serves its pages
    to the end, the count is the number of points, over all the pages, whose
    payload id starts with the pattern, and the loop stops at the first
    page that names no next one. *)
Theorem count_scans_every_page (fuel : nat) (videoId : string)
  (w : World N St) (e : Error) (st1 st2 : St)
  (pages : list ScrollResponse) :
  count qdrantClient (id_text_filter (idPattern videoId)) (backend w)
  = (Thrown e, st1) ->
  walk qdrantClient (fun offset => page_request offset WithPayload)
    None st1 pages None st2 ->
  List.length pages < fuel ->
  exists w',
    countYoutubeTranscriptChunks_qdrant qdrantClient fuel videoId w
    = Some (Returned
              (List.length
                 (filter (payload_id_startsWith (idPattern videoId))
                    (all_points pages))), w') /\
    backend w' = st2 /\
    List.length (requests w') = List.length (requests w) + 1 +
                                List.length pages.
Proof.
  intros Hc Hwalk Hfuel.
  unfold countYoutubeTranscriptChunks_qdrant, try_catch, count_by_filter.
  unfold bind at 1. unfold call at 1. rewrite Hc.
  destruct (@doWhile_walk nat
              (fun offset => page_request offset WithPayload)
              (fun count_ response =>
                 count_ +
                 List.length (filter (payload_id_startsWith
                                        (idPattern videoId))
                                (points response)))
              (fun count_ offset =>
                 bind (call (Scroll (page_request offset WithPayload))
                         (scroll qdrantClient
                            (page_request offset WithPayload)))
                   (fun response =>
                      ret (count_ +
                           List.length
                             (filter (payload_id_startsWith
                                        (idPattern videoId))
                                (points response)),
                           next_page_offset response)))
              (fun _ _ _ => eq_refl) _ _ _ _ _ Hwalk fuel 0
              {| backend := st1;
                 requests := requests w ++
                   [Count (id_text_filter (idPattern videoId))];
                 uuids := uuids w |} eq_refl Hfuel)
    as (w' & Hrun & Hb & _ & Hr).
  unfold count_matching. rewrite Hrun.
  exists w'. rewrite fold_pages_count. cbn [Nat.add].
  split; [reflexivity |]. split; [exact Hb |].
  rewrite Hr. cbn. rewrite length_app. cbn. lia.
Qed.

Lemma fold_pages_chunks (pages : list ScrollResponse) :
  forall acc : list (SearchResult N),
    fold_left
      (fun chunks response => chunks ++ map point_result (points response))
      pages acc
    = acc ++ map point_result (all_points pages).
Proof.
  unfold all_points.
  induction pages as [| page pages IH]; intros acc; cbn.
  - now rewrite app_nil_r.
  - now rewrite IH, map_app, app_assoc.
Qed.

(** X16. Reading the chunks of a document from the backend is all or
    nothing: if the backend serves its pages to the end, the result holds
    one entry for every point of every page, in order; if a request raises,
    the result is empty, whatever the pages before it held. *)
Theorem chunks_by_name_all_or_nothing (fuel : nat) (name : string)
  (w : World N St) (pages : list ScrollResponse) (failure : option Error)
  (st' : St) :
  walk qdrantClient (named_page_request name) None (backend w) pages
    failure st' ->
  List.length pages < fuel ->
  exists w',
    getChunksByDocumentName_qdrant qdrantClient fuel name w
    = Some (Returned
              (match failure with
               | None => map point_result (all_points pages)
               | Some _ => []
               end), w') /\
    backend w' = st'.
Proof.
  intros Hwalk Hfuel.
  unfold getChunksByDocumentName_qdrant, try_catch.
  destruct (@doWhile_walk (list (SearchResult N))
              (named_page_request name)
              (fun (chunks : list (SearchResult N)) response =>
                 chunks ++ map point_result (points response))
              (fun chunks offset =>
                 bind (call (Scroll (named_page_request name offset))
                         (scroll qdrantClient
                            (named_page_request name offset)))
                   (fun response =>
                      ret (chunks ++ map point_result (points response),
                           next_page_offset response)))
              (fun _ _ _ => eq_refl) _ _ _ _ _ Hwalk fuel [] w eq_refl Hfuel)
    as (w' & Hrun & Hb & _).
  unfold named_page_request in Hrun at 1 2.
  rewrite Hrun. exists w'.
  destruct failure; [now split |].
  rewrite fold_pages_chunks. now split.
Qed.

Lemma set_add_spec (s : string) (acc : list string) :
  NoDup acc ->
  NoDup (set_add s acc) /\
  forall x, In x (set_add s acc) <-> In x acc \/ x = s.
Proof.
  intros Hacc. unfold set_add.
  destruct (existsb (String.eqb s) acc) eqn:E.
  - split; [exact Hacc |]. intros x. split; [now left |].
    intros [H | ->]; [exact H |].
    apply existsb_exists in E. destruct E as (y & Hy & Ey).
    apply String.eqb_eq in Ey. now subst.
  - split.
    + apply NoDup_app; [exact Hacc | repeat constructor; intros [] |].
      intros x Hx [<- | []].
      assert (existsb (String.eqb s) acc = true); [| congruence].
      apply existsb_exists. exists s. split; [exact Hx |].
      apply String.eqb_refl.
    + intros x. rewrite in_app_iff. cbn. intuition.
Qed.

Lemma names_of_points (l : list PointRecord) :
  forall acc,
    NoDup acc ->
    let names :=
      fold_left
        (fun names point =>
           match p_documentName (pt_payload point) with
           | Some name => if truthy name then set_add name names else names
           | None => names
           end) l acc in
    NoDup names /\
    forall name,
      In name names <->
      In name acc \/
      (name <> "" /\
       exists point,
         In point l /\ p_documentName (pt_payload point) = Some name).
Proof.
  induction l as [| pt l IH]; intros acc Hacc; cbn [fold_left].
  - cbv zeta. split; [exact Hacc |].
    intros name. split; [now left |].
    intros [H | (_ & point & [] & _)]. exact H.
  - destruct (p_documentName (pt_payload pt)) as [nm |] eqn:En.
    + destruct (truthy nm) eqn:Et; unfold truthy in Et.
      * apply negb_true_iff, String.eqb_neq in Et.
        destruct (set_add_spec nm Hacc) as [Hn1 Hin1].
        destruct (IH _ Hn1) as [Hn Hin]. cbv zeta in *.
        split; [exact Hn |]. intros name. rewrite Hin, Hin1.
        split.
        -- intros [[H | ->] | (Hne & point & Hd & Hname)].
           ++ now left.
           ++ right. split; [exact Et |]. exists pt. split; [now left | exact En].
           ++ right. split; [exact Hne |]. exists point.
              split; [now right | exact Hname].
        -- intros [H | (Hne & point & [<- | Hd] & Hname)].
           ++ left. now left.
           ++ left. right. congruence.
           ++ right. split; [exact Hne |]. now exists point.
      * apply negb_false_iff, String.eqb_eq in Et. subst nm.
        destruct (IH acc Hacc) as [Hn Hin]. cbv zeta in *.
        split; [exact Hn |]. intros name. rewrite Hin.
        split; intros [H | (Hne & point & Hd & Hname)]; try (now left);
          right; (split; [exact Hne |]).
        -- exists point. split; [now right | exact Hname].
        -- destruct Hd as [<- | Hd]; [congruence |]. now exists point.
    + destruct (IH acc Hacc) as [Hn Hin]. cbv zeta in *.
      split; [exact Hn |]. intros name. rewrite Hin.
      split; intros [H | (Hne & point & Hd & Hname)]; try (now left);
        right; (split; [exact Hne |]).
      * exists point. split; [now right | exact Hname].
      * destruct Hd as [<- | Hd]; [congruence |]. now exists point.
Qed.

Lemma fold_pages_names {A} (f : A -> PointRecord -> A)
  (pages : list ScrollResponse) :
  forall acc,
    fold_left (fun names response => fold_left f (points response) names)
      pages acc
    = fold_left f (all_points pages) acc.
Proof.
  unfold all_points.
  induction pages as [| page pages IH]; intros acc; cbn; [reflexivity |].
  now rewrite IH, fold_left_app.
Qed.

(** X17. Listing the document names of the backend is all or nothing: if
    the backend serves its pages to the end, the list has no name twice and
    holds exactly the non-empty document names that some point of some page
    bears; if a request raises, the list is empty. *)
Theorem names_all_or_nothing (fuel : nat) (w : World N St)
  (pages : list ScrollResponse) (failure : option Error) (st' : St) :
  walk qdrantClient
    (fun offset => page_request offset (Include ["documentName"]))
    None (backend w) pages failure st' ->
  List.length pages < fuel ->
  exists names w',
    getUniqueDocumentNames_qdrant qdrantClient fuel w
    = Some (Returned names, w') /\
    backend w' = st' /\
    NoDup names /\
    match failure with
    | None =>
        forall name,
          In name names <->
          name <> "" /\
          exists point,
            In point (all_points pages) /\
            p_documentName (pt_payload point) = Some name
    | Some _ => names = []
    end.
Proof.
  intros Hwalk Hfuel.
  unfold getUniqueDocumentNames_qdrant, try_catch.
  set (add_name := fun (names : list string) (point : PointRecord) =>
                     match p_documentName (pt_payload point) with
                     | Some name =>
                         if truthy name then set_add name names else names
                     | None => names
                     end).
  destruct (@doWhile_walk (list string)
              (fun offset => page_request offset (Include ["documentName"]))
              (fun names response => fold_left add_name (points response) names)
              (fun documentNames offset =>
                 bind (call (Scroll (page_request offset
                                       (Include ["documentName"])))
                         (scroll qdrantClient
                            (page_request offset
                               (Include ["documentName"]))))
                   (fun response =>
                      ret (fold_left add_name (points response)
                             documentNames,
                           next_page_offset response)))
              (fun _ _ _ => eq_refl) _ _ _ _ _ Hwalk fuel [] w eq_refl Hfuel)
    as (w' & Hrun & Hb & _).
  rewrite Hrun.
  destruct failure as [e |].
  - exists [], w'. repeat split; [exact Hb | constructor].
  - rewrite fold_pages_names.
    destruct (@names_of_points (all_points pages) [] (NoDup_nil _))
      as [Hn Hin].
    eexists _, w'. split; [reflexivity |]. split; [exact Hb |].
    split; [exact Hn |].
    intros name. etransitivity; [apply Hin |].
    split; [intros [[] | H]; exact H | now right].
Qed.

(** *** Deleting in batches *)

Lemma firstn_add {A} (a b : nat) (l : list A) :
  firstn (a + b) l = firstn a l ++ firstn b (skipn a l).
Proof.
  revert l. induction a as [| a IH]; intros l; [reflexivity |].
  destruct l as [| x l]; cbn; [now rewrite firstn_nil | now rewrite IH].
Qed.

Lemma concat_slices {A} (l : list A) (n : nat) :
  List.concat
    (map (fun k => slice (k * 100) (k * 100 + 100) l) (seq 0 n))
  = firstn (n * 100) l.
Proof.
  induction n as [| n IH]; [reflexivity |].
  rewrite seq_S, map_app, concat_app, IH. cbn [map List.concat Nat.add].
  rewrite app_nil_r. unfold slice.
  replace (n * 100 + 100 - n * 100) with 100 by lia.
  replace (S n * 100) with (n * 100 + 100) by lia.
  now rewrite firstn_add.
Qed.

(** The batches cut the list: put end to end they give it back, and none
    is empty or longer than a hundred. *)
Lemma batches_cut (l : list string) :
  List.concat (batches l) = l /\
  Forall (fun b => 0 < List.length b <= 100) (batches l).
Proof.
  unfold batches, batch_starts. rewrite map_map. split.
  - rewrite (concat_slices l). apply firstn_all2.
    pose proof (Nat.div_mod_eq (List.length l + 100 - 1) 100).
    pose proof (Nat.mod_upper_bound (List.length l + 100 - 1) 100). lia.
  - apply Forall_forall. intros b Hb.
    apply in_map_iff in Hb. destruct Hb as (k & <- & Hk).
    apply in_seq in Hk. unfold slice.
    rewrite length_firstn, length_skipn.
    pose proof (Nat.div_mod_eq (List.length l + 100 - 1) 100).
    pose proof (Nat.mod_upper_bound (List.length l + 100 - 1) 100). lia.
Qed.

Lemma delete_batches_loop (l : list string) :
  (forall ids st, exists st',
      delete qdrantClient (DeletePoints ids) st = (Returned tt, st')) ->
  forall (starts : list nat) (deletedCount : nat) (w : World N St),
    exists w',
      forEachM
        (fun deletedCount i =>
           bind (call (Delete (DeletePoints (slice i (i + 100) l)))
                   (delete qdrantClient
                      (DeletePoints (slice i (i + 100) l))))
             (fun _ =>
                ret (deletedCount + List.length (slice i (i + 100) l))))
        starts deletedCount w
      = Some (Returned
                (deletedCount +
                 List.length
                   (List.concat
                      (map (fun i => slice i (i + 100) l) starts))), w') /\
      requests w' =
      requests w ++
      map (fun i => Delete (DeletePoints (slice i (i + 100) l))) starts /\
      uuids w' = uuids w.
Proof.
  intros Hdel. induction starts as [| i starts IH]; intros deletedCount w.
  - exists w. cbn. rewrite app_nil_r, Nat.add_0_r. now split.
  - cbn [forEachM]. unfold bind at 1. unfold bind at 1. unfold call at 1.
    destruct (Hdel (slice i (i + 100) l) (backend w)) as (st' & ->).
    unfold ret at 1.
    destruct (IH (deletedCount + List.length (slice i (i + 100) l))
                {| backend := st';
                   requests := requests w ++
                     [Delete (DeletePoints (slice i (i + 100) l))];
                   uuids := uuids w |}) as (w' & Hrun & Hr & Hu).
    exists w'. rewrite Hrun. cbn [map List.concat].
    rewrite length_app, Hr. cbn [requests uuids] in *.
    rewrite <- app_assoc. cbn [app].
    split; [now rewrite Nat.add_assoc |]. split; [reflexivity | exact Hu].
Qed.

(** The run of the batched delete on a backend that accepts it. *)
Lemma delete_batches_run (chunksToDelete : list string)
  (w : World N St) :
  (forall ids st, exists st',
      delete qdrantClient (DeletePoints ids) st = (Returned tt, st')) ->
  exists w',
    delete_in_batches qdrantClient chunksToDelete w
    = Some (Returned (List.length chunksToDelete), w') /\
    requests w' =
    requests w ++
    map (fun b => Delete (DeletePoints b)) (batches chunksToDelete) /\
    List.concat (batches chunksToDelete) = chunksToDelete /\
    Forall (fun b => 0 < List.length b <= 100) (batches chunksToDelete).
Proof.
  intros Hdel.
  destruct (delete_batches_loop chunksToDelete Hdel
              (batch_starts 100 (List.length chunksToDelete)) 0 w)
    as (w' & Hrun & Hr & _).
  destruct (batches_cut chunksToDelete) as [Hcat Hsize].
  exists w'. unfold delete_in_batches. split; [| split; [| split]].
  - etransitivity; [exact Hrun |].
    fold (batches chunksToDelete). now rewrite Hcat.
  - rewrite Hr. unfold batches. now rewrite map_map.
  - exact Hcat.
  - exact Hsize.
Qed.

(** X18. When the backend accepts every delete by keys, the batched delete
    of the second tier returns the number of keys it was given, and sends
    them all, once each and in order, in requests of at most a hundred
    keys. *)
Theorem delete_in_batches_sends_all (chunksToDelete : list string)
  (w : World N St) :
  (forall ids st, exists st',
      delete qdrantClient (DeletePoints ids) st = (Returned tt, st')) ->
  exists w',
    delete_in_batches qdrantClient chunksToDelete w
    = Some (Returned (List.length chunksToDelete), w') /\
    requests w' =
    requests w ++
    map (fun b => Delete (DeletePoints b)) (batches chunksToDelete) /\
    List.concat (batches chunksToDelete) = chunksToDelete /\
    Forall (fun b => 0 < List.length b <= 100) (batches chunksToDelete).
Proof. apply delete_batches_run. Qed.

Lemma fold_pages_keys (p : PointRecord -> bool)
  (pages : list ScrollResponse) :
  forall acc : list string,
    fold_left
      (fun chunksToDelete response =>
         chunksToDelete ++ map pt_id (filter p (points response)))
      pages acc
    = acc ++ map pt_id (filter p (all_points pages)).
Proof.
  unfold all_points.
  induction pages as [| page pages IH]; intros acc; cbn.
  - now rewrite app_nil_r.
  - now rewrite IH, filter_app, map_app, app_assoc.
Qed.

(** X19. When the delete by filter raises, the chunks of a video are
    deleted by a scan: if the backend serves its pages to the end and
    accepts every delete by keys, the operation returns the number of
    points, over all the pages, whose payload id starts with the pattern,
    after one page request per page and one delete request per batch of
    their keys. *)
Theorem delete_scans_every_page (fuel : nat) (videoId : string)
  (w w1 : World N St) (e : Error) (pages : list ScrollResponse) (st2 : St) :
  delete_by_filter qdrantClient videoId w = Some (Thrown e, w1) ->
  walk qdrantClient (fun offset => page_request offset WithPayload)
    None (backend w1) pages None st2 ->
  List.length pages < fuel ->
  (forall ids st, exists st',
      delete qdrantClient (DeletePoints ids) st = (Returned tt, st')) ->
  let keys :=
    map pt_id
      (filter (payload_id_startsWith (idPattern videoId))
         (all_points pages)) in
  exists w',
    deleteYoutubeTranscriptChunks_qdrant qdrantClient fuel videoId w
    = Some (Returned (List.length keys), w') /\
    List.length (requests w') =
    List.length (requests w1) + List.length pages +
    List.length (batches keys).
Proof.
  intros H1 Hwalk Hfuel Hdel keys.
  unfold deleteYoutubeTranscriptChunks_qdrant, try_catch. rewrite H1.
  unfold delete_by_scan, collect_matching. unfold bind at 1.
  destruct (@doWhile_walk (list string)
              (fun offset => page_request offset WithPayload)
              (fun chunksToDelete response =>
                 chunksToDelete ++
                 map pt_id (filter (payload_id_startsWith
                                      (idPattern videoId))
                              (points response)))
              (fun chunksToDelete offset =>
                 bind (call (Scroll (page_request offset WithPayload))
                         (scroll qdrantClient
                            (page_request offset WithPayload)))
                   (fun response =>
                      ret (chunksToDelete ++
                           map pt_id
                             (filter (payload_id_startsWith
                                        (idPattern videoId))
                                (points response)),
                           next_page_offset response)))
              (fun _ _ _ => eq_refl) _ _ _ _ _ Hwalk fuel [] w1 eq_refl
              Hfuel)
    as (w2 & Hrun & _ & _ & Hr).
  rewrite Hrun, fold_pages_keys. cbn [app]. fold keys.
  destruct (Nat.eqb (List.length keys) 0) eqn:E.
  - apply Nat.eqb_eq in E. exists w2. unfold ret.
    destruct keys; [| discriminate]. split; [reflexivity |].
    rewrite Hr. cbn. lia.
  - destruct (delete_batches_run keys w2 Hdel)
      as (w3 & Hrun3 & Hr3 & _).
    exists w3. rewrite Hrun3. split; [reflexivity |].
    rewrite Hr3, length_app, length_map, Hr. lia.
Qed.

(** *** What never raises *)

(** X20. The existence check against the backend never raises: whatever
    the backend answers, it returns a boolean after one, two or three
    requests. *)
Theorem exists_never_raises (videoId : string) (w : World N St) :
  exists b w',
    doesTranscriptExist_qdrant qdrantClient videoId w
    = Some (Returned b, w') /\
    List.length (requests w) < List.length (requests w')
    <= List.length (requests w) + 3.
Proof.
  unfold doesTranscriptExist_qdrant, try_catch, exists_by_count,
    exists_by_filtered_scroll, exists_by_first_page, bind, call, ret.
  destruct (count qdrantClient _ (backend w)) as [[n | e1] st1].
  - do 2 eexists. split; [reflexivity |]. cbn. rewrite length_app. cbn. lia.
  - cbn [backend].
    destruct (scroll qdrantClient _ st1) as [[r | e2] st2].
    + do 2 eexists. split; [reflexivity |]. cbn.
      rewrite !length_app. cbn. lia.
    + cbn [backend].
      destruct (scroll qdrantClient _ st2) as [[r | e3] st3];
        do 2 eexists; (split; [reflexivity |]); cbn;
        rewrite !length_app; cbn; lia.
Qed.

(** X21. The delete by ids against the backend never raises, and it asks
    the backend to delete only after a count that was not zero: it returns
    that count when the delete went through, and 0 in every other case. *)
Theorem delete_by_ids_never_raises (chunkIds : list string)
  (w : World N St) :
  let filter := {| must := []; should := map (MatchValue "id") chunkIds |} in
  exists n w',
    deleteChunksByIds_qdrant qdrantClient chunkIds w
    = Some (Returned n, w') /\
    ((n = 0 /\ requests w' = requests w) \/
     (n = 0 /\ requests w' = requests w ++ [Count filter]) \/
     (exists m st,
        0 < m /\
        count qdrantClient filter (backend w) = (Returned m, st) /\
        requests w' =
        requests w ++ [Count filter; Delete (DeleteFilter filter)] /\
        (n = m /\ fst (delete qdrantClient (DeleteFilter filter) st)
                  = Returned tt \/
         n = 0 /\ fst (delete qdrantClient (DeleteFilter filter) st)
                  <> Returned tt))).
Proof.
  intros filter. unfold deleteChunksByIds_qdrant.
  destruct (Nat.eqb (List.length chunkIds) 0).
  - exists 0, w. split; [reflexivity |]. now left.
  - unfold try_catch, bind, call, ret. fold filter.
    destruct (count qdrantClient filter (backend w)) as [[m | e1] st1] eqn:Ec.
    + destruct (Nat.eqb m 0) eqn:Em.
      * apply Nat.eqb_eq in Em. subst m.
        do 2 eexists. split; [reflexivity |]. right. left. now split.
      * apply Nat.eqb_neq in Em. cbn [backend].
        destruct (delete qdrantClient (DeleteFilter filter) st1)
          as [[[] | e2] st2] eqn:Ed;
          do 2 eexists; (split; [reflexivity |]); right; right;
          exists m, st1; (split; [lia |]); (split; [reflexivity |]);
          cbn [requests]; rewrite <- app_assoc; (split; [reflexivity |]);
          rewrite Ed; cbn [fst].
        -- now left.
        -- right. split; [reflexivity | discriminate].
    + do 2 eexists. split; [reflexivity |]. right. left. now split.
Qed.

End Facts.

Lemma write_sends_one_upsert_witness :
  let w := Sample.fresh_world (N := float) Sample.vacant in
  let pts := points_from Sample.uuid (uuids w) Sample.untagged in
  addDocumentChunks_qdrant Sample.paged Sample.uuid Sample.untagged w
  = Some (fst (upsert Sample.paged pts (backend w)),
          {| backend := snd (upsert Sample.paged pts (backend w));
             requests := requests w ++ [Upsert pts];
             uuids := uuids w + List.length Sample.untagged |}) /\
  List.length pts = List.length Sample.untagged /\
  map (@ps_vector float) pts = map (@embedding float) Sample.untagged /\
  map (@ps_payload float) pts = map payload_of Sample.untagged.
Proof.
  intros w.
  apply (@write_sends_one_upsert float Sample.Collection Sample.paged
           Sample.uuid Sample.untagged w).
  discriminate.
Defined.

Lemma crowded_walk :
  walk Sample.paged (fun offset => page_request offset WithPayload)
    None Sample.crowded Sample.crowded_pages None Sample.crowded.
Proof.
  apply walk_next with (st' := Sample.crowded); [reflexivity | reflexivity |].
  apply walk_last; reflexivity.
Defined.

Lemma count_scans_every_page_witness :
  exists w' : World float (Sample.Collection (N := float)),
    countYoutubeTranscriptChunks_qdrant Sample.paged 3 "abc"
      (Sample.fresh_world (N := float) Sample.crowded)
    = Some (Returned
              (List.length
                 (filter (payload_id_startsWith (idPattern "abc"))
                    (all_points Sample.crowded_pages))), w') /\
    backend w' = Sample.crowded /\
    List.length (requests w') =
    List.length (requests (Sample.fresh_world (N := float) Sample.crowded)) + 1 +
    List.length Sample.crowded_pages.
Proof.
  apply (@count_scans_every_page float Sample.Collection Sample.paged 3
           "abc" (Sample.fresh_world (N := float) Sample.crowded) "Bad Request"
           Sample.crowded Sample.crowded Sample.crowded_pages).
  - reflexivity.
  - exact crowded_walk.
  - cbn. lia.
Defined.

Lemma chunks_by_name_all_or_nothing_witness :
  exists w' : World float (Sample.Collection (N := float)),
    getChunksByDocumentName_qdrant Sample.paged 2 "doc"
      (Sample.fresh_world (N := float) Sample.tidy)
    = Some (Returned (map (@point_result float float_number)
                        (all_points [Sample.tidy_page])), w') /\
    backend w' = Sample.tidy.
Proof.
  apply (@chunks_by_name_all_or_nothing float float_number Sample.Collection
           Sample.paged 2 "doc" (Sample.fresh_world (N := float) Sample.tidy)
           [Sample.tidy_page] None Sample.tidy).
  - apply walk_last; reflexivity.
  - cbn. lia.
Defined.

Lemma names_all_or_nothing_witness :
  exists names (w' : World float (Sample.Collection (N := float))),
    getUniqueDocumentNames_qdrant Sample.paged 2
      (Sample.fresh_world (N := float) Sample.tidy)
    = Some (Returned names, w') /\
    backend w' = Sample.tidy /\
    NoDup names /\
    forall name,
      In name names <->
      name <> "" /\
      exists point,
        In point (all_points [Sample.tidy_page]) /\
        p_documentName (pt_payload point) = Some name.
Proof.
  apply (@names_all_or_nothing float Sample.Collection Sample.paged 2
           (Sample.fresh_world (N := float) Sample.tidy) [Sample.tidy_page] None
           Sample.tidy).
  - apply walk_last; reflexivity.
  - cbn. lia.
Defined.

Lemma paged_accepts_deletes :
  forall ids (st : Sample.Collection (N := float)),
  exists st', delete Sample.paged (DeletePoints ids) st = (Returned tt, st').
Proof. intros ids st. eexists. reflexivity. Defined.

Lemma delete_in_batches_sends_all_witness :
  let keys := map (@ps_id float) (Sample.stored Sample.crowded) in
  let w := Sample.fresh_world (N := float) Sample.crowded in
  exists w' : World float (Sample.Collection (N := float)),
    delete_in_batches Sample.paged keys w
    = Some (Returned (List.length keys), w') /\
    requests w' =
    requests w ++ map (fun b => Delete (DeletePoints b)) (batches keys) /\
    List.concat (batches keys) = keys /\
    Forall (fun b => 0 < List.length b <= 100) (batches keys).
Proof.
  intros keys w.
  apply (@delete_in_batches_sends_all float Sample.Collection Sample.paged
           keys w).
  exact paged_accepts_deletes.
Defined.

Lemma delete_scans_every_page_witness :
  let keys :=
    map pt_id
      (filter (payload_id_startsWith (idPattern "abc"))
         (all_points Sample.crowded_pages)) in
  let w := Sample.fresh_world (N := float) Sample.crowded in
  let w1 := sent (Count (id_text_filter (idPattern "abc"))) Sample.crowded w in
  exists w' : World float (Sample.Collection (N := float)),
    deleteYoutubeTranscriptChunks_qdrant Sample.paged 3 "abc" w
    = Some (Returned (List.length keys), w') /\
    List.length (requests w') =
    List.length (requests w1) + List.length Sample.crowded_pages +
    List.length (batches keys).
Proof.
  intros keys w w1.
  apply (@delete_scans_every_page float Sample.Collection Sample.paged 3
           "abc" w w1 "Bad Request" Sample.crowded_pages Sample.crowded).
  - reflexivity.
  - exact crowded_walk.
  - cbn. lia.
  - exact paged_accepts_deletes.
Defined.

End PrimaryFacts.
